(** * The flat database of src/flat-database.cpp

    [CFlatDB<T>] stores one object of type [T] in one file,

      [type-tag][network-tag][payload][checksum over everything before it]

    and reads it back with a status code.  [LoadFlatDB] and [DumpFlatDB]
    wrap the two operations with the policy of what to do on each status.

    The embedding is shallow.  The four functions of the source are
    computations in a state-and-exception monad over a [World]: the objects
    that the C++ code reaches through [T&] references, the files, and a
    trace of the calls that matter to the callers.  What the translation
    unit takes from elsewhere (the payload type [T], [Hash], the chain
    parameters, the string codec of the stream classes) is an interface the
    development is parametric in.

    A file is its content.  Opening a path for reading fails when there is
    no file.  A read of a file hands back the bytes asked for when they are
    there; what it does when they are not is left to the stream class, which
    is a parameter.  The world lists the paths on which a write fails, and
    for each of them whether it is the opening that is refused or the write
    that throws after some bytes have got through.
    Integers of type [int] and [size_t] wrap around as they do on the
    machine.  Log output ([LogPrintf], [error]) and the clock
    ([GetTimeMillis]) have no influence on any result and are left out;
    [LOCK] does nothing in a sequential model. *)

From Stdlib Require Import ZArith Strings.Byte.
From stdpp Require Import base tactics option list gmap strings functions.

Local Open Scope Z_scope.

(** ** Bytes and machine integers *)

#[global] Instance byte_eq_dec : EqDecision byte := Byte.byte_eq_dec.

(** Conversion to [int] (32 bits, two's complement). *)
Definition to_int (z : Z) : Z := (z + 2^31) `mod` 2^32 - 2^31.

(** Conversion to [size_t] (64 bits, unsigned). *)
Definition to_size_t (z : Z) : Z := z `mod` 2^64.

(** [sizeof(uint256)] *)
Definition sizeof_uint256 : Z := 32.

(** A [uint256] is kept as the 32 bytes the streams read and write. *)
Definition uint256 : Type := list byte.

(** ** What the translation unit takes from elsewhere *)

(** The capability set of the template parameter [T].  [Unserialize o s] is
    [s >> o]: it works on the object in place, so it returns the object as
    it is afterwards together with the rest of the stream, or [None] for the
    stream when it threw. *)
Class Payload (T : Type) : Type := {
  Serialize : T → list byte;
  Unserialize : T → list byte → T * option (list byte);
  Clear : T → T;
  CheckAndRemove : T → T
}.

(** [MessageStartChars], the four bytes of [Params().MessageStart()]. *)
Record MessageStartChars : Type := {
  ms0 : byte; ms1 : byte; ms2 : byte; ms3 : byte
}.

(** [FLATDATA(x)] puts the bytes of [x] on the stream as they are. *)
Definition FLATDATA (m : MessageStartChars) : list byte :=
  [ms0 m; ms1 m; ms2 m; ms3 m].

(** Modelled from the spec: [Hash], [Params().MessageStart()], the
    [std::string] operators of [CDataStream] and [CAutoFile] are declared
    outside src/.  The spec has a checksum of "fixed 32 bytes" over the
    bytes before it, a network-tag of fixed size supplied by the host, and a
    type-tag that is a "length-prefixed string" whose parsing may raise.
    [ShortRead n s] is what [CAutoFile::read] does when [n] bytes are asked
    for and the file has only the fewer bytes [s] left: the bytes it hands
    back and the rest of the file, or [None] when it raises.  The spec has
    both: a file shorter than a checksum goes on to the comparison of the
    checksums (4.1 step 2, section 8), and an I/O exception of the reads
    gives [HashReadError] (4.1 step 3). *)
Class Host : Type := {
  Hash : list byte → uint256;
  MessageStart : MessageStartChars;
  WriteString : string → list byte;
  ReadString : list byte → option (string * list byte);
  ShortRead : nat → list byte → option (list byte * list byte)
}.

(** Modelled from the spec: [CDataStream::read] is declared outside src/.
    Parsing the buffer raises when it runs out of bytes (4.1 step 5): here
    when fewer than [n] are left.  The result is the bytes read and the rest
    of the stream. *)
Definition stream_read (n : nat) (s : list byte) : option (list byte * list byte) :=
  if decide (n ≤ length s)%nat then Some (take n s, drop n s) else None.

(** Modelled from the spec: [CAutoFile::read] is declared outside src/.  A
    read hands back the [n] bytes asked for and the rest of the file when
    the file has them; when it has not, it does what [ShortRead] says. *)
Definition file_read {host : Host} (n : nat) (s : list byte)
  : option (list byte * list byte) :=
  if decide (n ≤ length s)%nat then Some (take n s, drop n s) else ShortRead n s.

(** Modelled from the spec: [filein >> hashIn] for a [uint256], a read of
    the "fixed 32 bytes" of a checksum. *)
Definition read_uint256 {host : Host} (s : list byte) : option (uint256 * list byte) :=
  file_read (Z.to_nat sizeof_uint256) s.

(** ** Result codes, the handle, the world *)

Inductive CFlatDB_ReadResult : Set :=
  | Ok
  | FileError
  | HashReadError
  | IncorrectHash
  | IncorrectMagicMessage
  | IncorrectMagicNumber
  | IncorrectFormat.

#[global] Instance CFlatDB_ReadResult_eq_dec : EqDecision CFlatDB_ReadResult.
Proof. solve_decision. Defined.

Record CFlatDB : Type := {
  pathDB : string;
  strFilename : string;
  strMagicMessage : string
}.

Definition is_separator (c : Ascii.ascii) : bool :=
  Ascii.eqb c (Ascii.Ascii true true true true false true false false).

Definition begins_with_separator (s : string) : bool :=
  match s with
  | String c _ => is_separator c
  | EmptyString => false
  end.

Fixpoint ends_with_separator (s : string) : bool :=
  match s with
  | EmptyString => false
  | String c EmptyString => is_separator c
  | String _ s' => ends_with_separator s'
  end.

(** [p / q] of [boost::filesystem::path] with [/] as the separator: nothing
    is appended for an empty [q], and a separator goes in between unless [p]
    is empty or ends with one, or [q] begins with one. *)
Definition path_append (p q : string) : string :=
  match q with
  | EmptyString => p
  | _ =>
    if begins_with_separator q then p +:+ q
    else if bool_decide (p = EmptyString) || ends_with_separator p then p +:+ q
    else p +:+ "/" +:+ q
  end.

(** [CFlatDB<T>::CFlatDB]; the data directory is the caller's. *)
Definition mkCFlatDB (GetDataDir strFilenameIn strMagicMessageIn : string) : CFlatDB :=
  {| pathDB := path_append GetDataDir strFilenameIn;
     strFilename := strFilenameIn;
     strMagicMessage := strMagicMessageIn |}.

(** A [T&] is an address. *)
Definition ref : Set := nat.

(** The calls that leave a mark on the trace: what is done to a payload
    object, and [Write]. *)
Inductive Call : Set :=
  | CallUnserialize (obj : ref)
  | CallClear (obj : ref)
  | CallCheckAndRemove (obj : ref)
  | CallWrite (obj : ref).

#[global] Instance Call_eq_dec : EqDecision Call.
Proof. solve_decision. Defined.

Record World (T : Type) : Type := mkWorld {
  heap : ref → T;                     (* the objects behind the references *)
  files : gmap string (list byte);    (* path to content *)
  unwritable : gset string;           (* paths on which a write fails *)
  torn : gmap string nat;             (* for such a path: the bytes that get
                                         through before the write throws;
                                         no entry: fopen(.., "wb") refuses *)
  calls : list Call                   (* trace, oldest first *)
}.
Arguments mkWorld {T}.
Arguments heap {T}.
Arguments files {T}.
Arguments unwritable {T}.
Arguments torn {T}.
Arguments calls {T}.

(** ** The monad: state, and [None] while a [std::exception] is in flight *)

Definition M (T A : Type) : Type := World T → option A * World T.

Definition ret {T A} (a : A) : M T A := λ w, (Some a, w).

Definition bind {T A B} (m : M T A) (k : A → M T B) : M T B :=
  λ w, match m w with
       | (Some a, w') => k a w'
       | (None, w') => (None, w')
       end.

(** [try { m } catch (std::exception &e) { h }] *)
Definition try_catch {T A} (m h : M T A) : M T A :=
  λ w, match m w with
       | (Some a, w') => (Some a, w')
       | (None, w') => h w'
       end.

(** A stream operation: its exception is the computation's. *)
Definition lift {T A} (o : option A) : M T A := λ w, (o, w).

Declare Scope flatdb_scope.
Delimit Scope flatdb_scope with flatdb.
Notation "x <- c ;; k" := (bind c (λ x, k))
  (at level 20, c at level 99, k at level 200, only parsing) : flatdb_scope.
Notation "' pat <- c ;; k" := (bind c (λ x, match x with pat => k end))
  (at level 20, pat pattern, c at level 99, k at level 200, only parsing) : flatdb_scope.
Notation "c ;; k" := (bind c (λ _, k))
  (at level 100, k at level 200, right associativity, only parsing) : flatdb_scope.
Local Open Scope flatdb_scope.

Section FlatDB.
Context {T : Type} {payloadT : Payload T} {host : Host}.

Definition log (c : Call) : M T unit :=
  λ w, (Some tt, mkWorld (heap w) (files w) (unwritable w) (torn w) (calls w ++ [c])).

Definition get_obj (r : ref) : M T T := λ w, (Some (heap w r), w).

Definition set_obj (r : ref) (o : T) : M T unit :=
  λ w, (Some tt, mkWorld (<[r := o]> (heap w)) (files w) (unwritable w) (torn w) (calls w)).

(** [fopen(path, "rb")]: the content to read, or a null handle. *)
Definition fopen_rb (path : string) : M T (option (list byte)) :=
  λ w, (Some (files w !! path), w).

(** [boost::filesystem::file_size(path)] of a file that was just opened. *)
Definition file_size (filein : list byte) : Z := Z.of_nat (length filein).

(** [fopen(path, "wb")]: truncates the file, or gives a null handle. *)
Definition fopen_wb (path : string) : M T bool :=
  λ w, if decide (path ∈ unwritable w ∧ torn w !! path = None) then (Some false, w)
       else (Some true, mkWorld (heap w) (<[path := []]> (files w)) (unwritable w) (torn w) (calls w)).

(** Modelled from the spec: [fileout << ssObj] of [CAutoFile], on the file
    opened by [fopen_wb].  All of [ssObj] goes into the file, or the write
    throws ("I/O exception while writing") with the first bytes of it in
    the file. *)
Definition fwrite (path : string) (ssObj : list byte) : M T unit :=
  λ w, if decide (path ∈ unwritable w) then
         (None, mkWorld (heap w)
                        (<[path := take (default 0%nat (torn w !! path)) ssObj]> (files w))
                        (unwritable w) (torn w) (calls w))
       else
         (Some tt, mkWorld (heap w) (<[path := ssObj]> (files w)) (unwritable w) (torn w) (calls w)).

(** [ssObj >> objToLoad] *)
Definition unserialize_into (objToLoad : ref) (ssObj : list byte) : M T (list byte) :=
  log (CallUnserialize objToLoad) ;;
  o <- get_obj objToLoad ;;
  let '(o', rest) := Unserialize o ssObj in
  set_obj objToLoad o' ;;
  lift rest.

(** [objToLoad.Clear()] *)
Definition call_Clear (objToLoad : ref) : M T unit :=
  log (CallClear objToLoad) ;;
  o <- get_obj objToLoad ;;
  set_obj objToLoad (Clear o).

(** [objToLoad.CheckAndRemove()] *)
Definition call_CheckAndRemove (objToLoad : ref) : M T unit :=
  log (CallCheckAndRemove objToLoad) ;;
  o <- get_obj objToLoad ;;
  set_obj objToLoad (CheckAndRemove o).

(** *** [CFlatDB<T>::Write] *)

(** The stream [Write] builds before it opens the file. *)
Definition Write_stream (flatdb : CFlatDB) (o : T) : list byte :=
  let ssObj := [] in
  let ssObj := ssObj ++ WriteString (strMagicMessage flatdb) in
  let ssObj := ssObj ++ FLATDATA MessageStart in
  let ssObj := ssObj ++ Serialize o in
  let hash := Hash ssObj in
  ssObj ++ hash.

Definition Write (flatdb : CFlatDB) (objToSave : ref) : M T bool :=
  log (CallWrite objToSave) ;;
  o <- get_obj objToSave ;;
  let ssObj := Write_stream flatdb o in
  fileout <- fopen_wb (pathDB flatdb) ;;
  if negb fileout then ret false
  else
    r <- try_catch
           (fwrite (pathDB flatdb) ssObj ;; ret None)
           (ret (Some false)) ;;
    match r with
    | Some e => ret e
    | None => ret true
    end.

(** *** [CFlatDB<T>::Read] *)

(** [int dataSize = fileSize - sizeof(uint256)], through [size_t] as the
    usual arithmetic conversions have it, then the clamp. *)
Definition body_length (file_size : Z) : Z :=
  let fileSize := to_int file_size in
  let dataSize := to_int (to_size_t (to_size_t fileSize - sizeof_uint256)) in
  if dataSize <? 0 then 0 else dataSize.

(** The first [try] block: the data, then the checksum. *)
Definition Read_data_and_hash (filein : list byte) (dataSize : Z)
  : M T (list byte * uint256) :=
  ' (vchData, filein) <- lift (file_read (Z.to_nat dataSize) filein) ;;
  ' (hashIn, filein) <- lift (read_uint256 filein) ;;
  ret (vchData, hashIn).

(** The second [try] block.  [Some r] is a [return r] inside the block,
    [None] is falling out of its end. *)
Definition Read_parse (flatdb : CFlatDB) (objToLoad : ref) (ssObj : list byte)
  : M T (option CFlatDB_ReadResult) :=
  ' (strMagicMessageTmp, ssObj) <- lift (ReadString ssObj) ;;
  if bool_decide (strMagicMessage flatdb ≠ strMagicMessageTmp) then
    ret (Some IncorrectMagicMessage)
  else
    ' (pchMsgTmp, ssObj) <- lift (stream_read 4 ssObj) ;;
    if bool_decide (pchMsgTmp ≠ FLATDATA MessageStart) then
      ret (Some IncorrectMagicNumber)
    else
      unserialize_into objToLoad ssObj ;;
      ret None.

Definition Read (flatdb : CFlatDB) (objToLoad : ref) (fDryRun : bool)
  : M T CFlatDB_ReadResult :=
  filein <- fopen_rb (pathDB flatdb) ;;
  match filein with
  | None => ret FileError
  | Some filein =>
    let dataSize := body_length (file_size filein) in
    r <- try_catch
           (r <- Read_data_and_hash filein dataSize ;; ret (Some r))
           (ret None) ;;
    match r with
    | None => ret HashReadError
    | Some (vchData, hashIn) =>
      let ssObj := vchData in
      let hashTmp := Hash ssObj in
      if bool_decide (hashIn ≠ hashTmp) then ret IncorrectHash
      else
        r <- try_catch
               (Read_parse flatdb objToLoad ssObj)
               (call_Clear objToLoad ;; ret (Some IncorrectFormat)) ;;
        match r with
        | Some e => ret e
        | None =>
          (if negb fDryRun then call_CheckAndRemove objToLoad else ret tt) ;;
          ret Ok
        end
    end
  end.

(** *** [LoadFlatDB] and [DumpFlatDB] *)

(** [flatdb.Read(objToLoad)] leaves out [fDryRun]; its default is in the
    header, which is not part of src/.  Modelled from the spec: Load
    "calls Read(payload, dryRun=false)". *)
Definition fDryRun_default : bool := false.

Definition LoadFlatDB (objToLoad : ref) (flatdb : CFlatDB) : M T bool :=
  readResult <- Read flatdb objToLoad fDryRun_default ;;
  let rest : M T bool :=
    Read flatdb objToLoad fDryRun_default ;;
    ret true in
  if bool_decide (readResult = FileError) then rest
  else if bool_decide (readResult ≠ Ok) then
    if bool_decide (readResult = IncorrectFormat) then rest
    else ret false
  else rest.

Definition DumpFlatDB (objToSave : ref) (flatdb : CFlatDB) : M T bool :=
  readResult <- Read flatdb objToSave true ;;
  let rest : M T bool :=
    Write flatdb objToSave ;;
    ret true in
  if bool_decide (readResult = FileError) then rest
  else if bool_decide (readResult ≠ Ok) then
    if bool_decide (readResult = IncorrectFormat) then rest
    else ret false
  else rest.

End FlatDB.

(** ** An instance to run the functions on

    A payload of bytes behind a one-byte count whose maintenance hook drops
    the zero entries, a 32-byte additive checksum, strings behind a one-byte
    length, and file reads that raise at the end of the file. *)
Module Toy.

Definition byte_of_nat (n : nat) : byte :=
  default x00 (Byte.of_nat (n mod 256)).

Definition sum_bytes (l : list byte) : nat :=
  foldr (λ b acc, (Byte.to_nat b + acc)%nat) 0%nat l.

#[global] Instance payload : Payload (list byte) := {|
  Serialize p := byte_of_nat (length p) :: p;
  Unserialize o s :=
    match s with
    | [] => (o, None)
    | n :: s' =>
      match stream_read (Byte.to_nat n) s' with
      | Some (p, rest) => (p, Some rest)
      | None => (s', None)
      end
    end;
  Clear _ := [];
  CheckAndRemove p := filter (λ b, b ≠ x00) p
|}.

#[global] Instance host : Host := {|
  Hash l := byte_of_nat (sum_bytes l + length l + 90) :: replicate 31 x00;
  MessageStart := {| ms0 := xbf; ms1 := x0c; ms2 := x6b; ms3 := xbd |};
  WriteString s := byte_of_nat (String.length s) :: String.list_byte_of_string s;
  ReadString s :=
    match s with
    | [] => None
    | n :: s' =>
      match stream_read (Byte.to_nat n) s' with
      | Some (chars, rest) => Some (String.string_of_list_byte chars, rest)
      | None => None
      end
    end;
  ShortRead _ _ := None
|}.


Definition flatdb : CFlatDB := mkCFlatDB "/data" "mncache.dat" "mnc".

Definition path : string := Eval vm_compute in pathDB flatdb.

(** A world with every object equal to [p], the files [fs], and nothing
    that refuses to be written. *)
Definition world (p : list byte) (fs : gmap string (list byte)) : World (list byte) :=
  mkWorld (λ _, p) fs ∅ ∅ [].

(** What [Write] leaves on disk for the payload [p]. *)
Definition image (p : list byte) : list byte := Write_stream flatdb p.

(** A file with a correct checksum over the bytes [body]. *)
Definition sealed (body : list byte) : list byte := body ++ Hash body.

(** Five bytes: shorter than a checksum. *)
Definition short_file : list byte := [x01; x02; x03; x04; x05].

(** The image of [[x01; x00]] with its last payload byte changed. *)
Definition corrupted_file : list byte := <[10%nat := x02]> (image [x01; x00]).

(** A sealed file of another type-tag, with a network-tag that is wrong
    too. *)
Definition foreign_type_file : list byte :=
  sealed (WriteString "gov" ++ [x00; x00; x00; x00] ++ Serialize [x01]).

(** A sealed file of the right type-tag and another network-tag. *)
Definition foreign_network_file : list byte :=
  sealed (WriteString "mnc" ++ [xce; xe2; xca; xff] ++ Serialize [x01]).

(** A sealed file with the right tags whose payload announces five
    entries and holds one. *)
Definition broken_payload_file : list byte :=
  sealed (WriteString "mnc" ++ FLATDATA MessageStart ++ [x05; x01]).

(** The world with the payload [p] everywhere and the one file [f]. *)
Definition world_with (p f : list byte) : World (list byte) :=
  world p {[path := f]}.

(** A handle on the same file for another type of object. *)
Definition flatdb_gov : CFlatDB := mkCFlatDB "/data" "mncache.dat" "gov".

(** A file that is nothing but the checksum of no bytes. *)
Definition bare_checksum_file : list byte := Hash [].

(** The world with the payload [p] everywhere, the files [fs], and a path
    that cannot be opened for writing. *)
Definition world_locked (p : list byte) (fs : gmap string (list byte)) : World (list byte) :=
  mkWorld (λ _, p) fs {[path]} ∅ [].

(** The same with a path that can be opened, on which a write throws after
    three bytes. *)
Definition world_torn (p : list byte) (fs : gmap string (list byte)) : World (list byte) :=
  mkWorld (λ _, p) fs {[path]} {[path := 3%nat]} [].

End Toy.

(** ** The worlds the payload calls lead to *)

Section Effects.
Context {T : Type} {payloadT : Payload T}.

(** After [ssObj >> objToLoad] has left [o'] behind the reference. *)
Definition after_Unserialize (obj : ref) (o' : T) (w : World T) : World T :=
  mkWorld (<[obj := o']> (heap w)) (files w) (unwritable w)
          (torn w) (calls w ++ [CallUnserialize obj]).

Definition after_Clear (obj : ref) (w : World T) : World T :=
  mkWorld (<[obj := Clear (heap w obj)]> (heap w)) (files w) (unwritable w)
          (torn w) (calls w ++ [CallClear obj]).

Definition after_CheckAndRemove (obj : ref) (w : World T) : World T :=
  mkWorld (<[obj := CheckAndRemove (heap w obj)]> (heap w)) (files w) (unwritable w)
          (torn w) (calls w ++ [CallCheckAndRemove obj]).

(** The codes on which [LoadFlatDB] and [DumpFlatDB] go on. *)
Definition proceeds (r : CFlatDB_ReadResult) : bool :=
  match r with
  | Ok | FileError | IncorrectFormat => true
  | HashReadError | IncorrectHash | IncorrectMagicMessage | IncorrectMagicNumber => false
  end.
End Effects.

#[global] Arguments stream_read : simpl never.
#[global] Arguments file_read : simpl never.
#[global] Arguments read_uint256 : simpl never.
#[global] Arguments body_length : simpl never.
#[global] Arguments Read_parse : simpl never.
#[global] Arguments Read : simpl never.
#[global] Arguments Write : simpl never.

(** ** Machine arithmetic of the body length *)

Lemma to_int_small z : - 2^31 ≤ z < 2^31 → to_int z = z.
Proof. intros Hz. unfold to_int. rewrite Z.mod_small; lia. Qed.

Lemma pow32_divide_pow64 : (2^32 | 2^64).
Proof. exists (2^32). reflexivity. Qed.

Lemma to_int_to_size_t z : to_int (to_size_t z) = to_int z.
Proof.
  unfold to_int, to_size_t. f_equal.
  rewrite <- (Z.mod_mod_divide (z `mod` 2^64 + 2^31) (2^64) (2^32))
    by apply pow32_divide_pow64.
  rewrite Zplus_mod_idemp_l.
  by rewrite Z.mod_mod_divide by apply pow32_divide_pow64.
Qed.

Lemma to_int_minus_idemp a b : to_int (to_int a - b) = to_int (a - b).
Proof.
  unfold to_int. f_equal.
  replace ((a + 2^31) `mod` 2^32 - 2^31 - b + 2^31)
    with ((a + 2^31) `mod` 2^32 + (- b)) by lia.
  rewrite Zplus_mod_idemp_l. f_equal. lia.
Qed.

Lemma to_int_size_t_minus a b :
  to_int (to_size_t (to_size_t a - b)) = to_int (a - b).
Proof.
  rewrite to_int_to_size_t. unfold to_int, to_size_t. f_equal.
  replace (a `mod` 2^64 - b + 2^31) with (a `mod` 2^64 + (2^31 - b)) by lia.
  rewrite <- (Z.mod_mod_divide (a `mod` 2^64 + (2^31 - b)) (2^64) (2^32))
    by apply pow32_divide_pow64.
  rewrite Zplus_mod_idemp_l.
  rewrite Z.mod_mod_divide by apply pow32_divide_pow64.
  f_equal. lia.
Qed.

(** Up to the clamp, the body length is the file size less 32, as an [int]. *)
Lemma body_length_eq n :
  body_length n =
  if to_int (n - sizeof_uint256) <? 0 then 0 else to_int (n - sizeof_uint256).
Proof.
  unfold body_length.
  by rewrite to_int_size_t_minus, to_int_minus_idemp.
Qed.

Lemma body_length_nonneg n : 0 ≤ body_length n.
Proof. rewrite body_length_eq. case_match; lia. Qed.

Lemma body_length_clamped n : 0 ≤ n < sizeof_uint256 → body_length n = 0.
Proof.
  unfold sizeof_uint256. intros Hn. rewrite body_length_eq.
  unfold sizeof_uint256. rewrite to_int_small by lia.
  case_match; lia.
Qed.

Lemma body_length_exact n :
  sizeof_uint256 ≤ n < 2^31 → body_length n = n - sizeof_uint256.
Proof.
  unfold sizeof_uint256. intros Hn. rewrite body_length_eq.
  unfold sizeof_uint256. rewrite to_int_small by lia.
  case_match; lia.
Qed.

(** ** Stream reads *)

Lemma stream_read_Some n s :
  (n ≤ length s)%nat → stream_read n s = Some (take n s, drop n s).
Proof. intros Hn. unfold stream_read. by rewrite decide_True. Qed.

Lemma stream_read_None n s : (length s < n)%nat → stream_read n s = None.
Proof. intros Hn. unfold stream_read. rewrite decide_False; [done | lia]. Qed.

Lemma stream_read_app a b : stream_read (length a) (a ++ b) = Some (a, b).
Proof.
  rewrite stream_read_Some by (rewrite length_app; lia).
  by rewrite take_app_length, drop_app_length.
Qed.

Lemma stream_read_inv n s a b :
  stream_read n s = Some (a, b) → s = a ++ b ∧ length a = n.
Proof.
  unfold stream_read. case_decide; [| done]. intros [= <- <-].
  split; [by rewrite take_drop | rewrite length_take; lia].
Qed.

(** ** File reads *)

Section FileRead.
Context {host : Host}.

(** With the bytes there, a file read is a stream read. *)
Lemma file_read_Some n s :
  (n ≤ length s)%nat → file_read n s = Some (take n s, drop n s).
Proof. intros Hn. unfold file_read. by rewrite decide_True. Qed.

Lemma file_read_short n s : (length s < n)%nat → file_read n s = ShortRead n s.
Proof. intros Hn. unfold file_read. rewrite decide_False; [done | lia]. Qed.

Lemma stream_read_file_read n s x : stream_read n s = Some x → file_read n s = Some x.
Proof. unfold stream_read, file_read. by case_decide. Qed.

Lemma file_read_app a b : file_read (length a) (a ++ b) = Some (a, b).
Proof. apply stream_read_file_read, stream_read_app. Qed.

Lemma read_uint256_exact h : length h = 32%nat → read_uint256 h = Some (h, []).
Proof.
  intros Hh. unfold read_uint256, sizeof_uint256.
  change (Z.to_nat 32) with 32%nat.
  pose proof (file_read_app h []) as Happ.
  by rewrite app_nil_r, Hh in Happ.
Qed.
End FileRead.

(** ** [Read], branch by branch *)

Section ReadBranches.
Context {T : Type} {payloadT : Payload T} {host : Host}.
Implicit Types (w : World T) (flatdb : CFlatDB) (obj : ref).

Lemma call_Clear_eq obj w : call_Clear obj w = (Some (), after_Clear obj w).
Proof. reflexivity. Qed.

Lemma call_CheckAndRemove_eq obj w :
  call_CheckAndRemove obj w = (Some (), after_CheckAndRemove obj w).
Proof. reflexivity. Qed.

Lemma unserialize_into_eq obj ssObj w :
  unserialize_into obj ssObj w =
  (snd (Unserialize (heap w obj) ssObj),
   after_Unserialize obj (fst (Unserialize (heap w obj) ssObj)) w).
Proof.
  unfold unserialize_into, bind, log, get_obj; simpl.
  by destruct (Unserialize (heap w obj) ssObj) as [o' [rest|]].
Qed.

(** The first [try] block does not touch the world. *)
Lemma Read_data_and_hash_eq filein dataSize w :
  Read_data_and_hash filein dataSize w =
  ('(vchData, rest) ← file_read (Z.to_nat dataSize) filein;
   '(hashIn, _) ← read_uint256 rest;
   Some (vchData, hashIn), w).
Proof.
  unfold Read_data_and_hash, bind, lift, ret.
  destruct (file_read _ filein) as [[vchData rest]|]; simpl; [| done].
  by destruct (read_uint256 rest) as [[hashIn ?]|].
Qed.

(** The second [try] block as a decision tree. *)
Lemma Read_parse_eq flatdb obj ssObj w :
  Read_parse flatdb obj ssObj w =
  match ReadString ssObj with
  | None => (None, w)
  | Some (tag, s1) =>
    if bool_decide (strMagicMessage flatdb ≠ tag) then
      (Some (Some IncorrectMagicMessage), w)
    else
      match stream_read 4 s1 with
      | None => (None, w)
      | Some (magic, s2) =>
        if bool_decide (magic ≠ FLATDATA MessageStart) then
          (Some (Some IncorrectMagicNumber), w)
        else
          let '(o', rest) := Unserialize (heap w obj) s2 in
          (if rest is Some _ then Some None else None,
           after_Unserialize obj o' w)
      end
  end.
Proof.
  unfold Read_parse, bind, lift, ret.
  destruct (ReadString ssObj) as [[tag s1]|]; [| done].
  case_bool_decide; [done |].
  destruct (stream_read 4 s1) as [[magic s2]|]; [| done].
  case_bool_decide; [done |].
  rewrite unserialize_into_eq.
  by destruct (Unserialize (heap w obj) s2) as [o' [rest|]].
Qed.

Lemma Read_eq flatdb obj fDryRun w :
  Read flatdb obj fDryRun w =
  match files w !! pathDB flatdb with
  | None => (Some FileError, w)
  | Some filein =>
    match fst (Read_data_and_hash filein (body_length (file_size filein)) w) with
    | None => (Some HashReadError, w)
    | Some (vchData, hashIn) =>
      if bool_decide (hashIn ≠ Hash vchData) then (Some IncorrectHash, w)
      else
        match Read_parse flatdb obj vchData w with
        | (None, w') => (Some IncorrectFormat, after_Clear obj w')
        | (Some (Some e), w') => (Some e, w')
        | (Some None, w') =>
          (Some Ok, if fDryRun then w' else after_CheckAndRemove obj w')
        end
    end
  end.
Proof.
  unfold Read, bind at 1, fopen_rb.
  destruct (files w !! pathDB flatdb) as [filein|]; [| done].
  unfold bind at 1, try_catch at 1, bind at 1.
  rewrite Read_data_and_hash_eq; simpl.
  destruct (_ ≫= _) as [[vchData hashIn]|]; simpl; [| done].
  case_bool_decide; [done |].
  unfold bind at 1, try_catch.
  destruct (Read_parse flatdb obj vchData w) as [[[e|]|] w']; simpl; [done | | done].
  by destruct fDryRun.
Qed.
End ReadBranches.

(** ** What [Read] does to the world *)

Section ReadEffects.
Context {T : Type} {payloadT : Payload T} {host : Host}.
Implicit Types (w : World T) (flatdb : CFlatDB) (obj : ref).

(** The second [try] block either returns early or throws with the world
    as it was, or has run [Unserialize] on the object, once. *)
Lemma Read_parse_world flatdb obj ssObj w r w1 :
  Read_parse flatdb obj ssObj w = (r, w1) →
  (w1 = w ∧ (r = None ∨ r = Some (Some IncorrectMagicMessage)
             ∨ r = Some (Some IncorrectMagicNumber))) ∨
  (∃ s2, w1 = after_Unserialize obj (fst (Unserialize (heap w obj) s2)) w ∧
         r = if snd (Unserialize (heap w obj) s2) is Some _ then Some None else None).
Proof.
  rewrite Read_parse_eq. intros Hr.
  destruct (ReadString ssObj) as [[tag s1]|]; [| left; by simplify_eq; auto].
  case_bool_decide; [left; simplify_eq; auto |].
  destruct (stream_read 4 s1) as [[magic s2]|]; [| left; simplify_eq; auto].
  case_bool_decide; [left; simplify_eq; auto |].
  right. exists s2.
  destruct (Unserialize (heap w obj) s2) as [o' rest]. by simplify_eq.
Qed.

(** The block throws at one of three places. *)
Lemma Read_parse_throws_iff flatdb obj ssObj w :
  fst (Read_parse flatdb obj ssObj w) = None ↔
  ReadString ssObj = None ∨
  (∃ s1, ReadString ssObj = Some (strMagicMessage flatdb, s1) ∧
     (stream_read 4 s1 = None ∨
      ∃ s2, stream_read 4 s1 = Some (FLATDATA MessageStart, s2) ∧
            snd (Unserialize (heap w obj) s2) = None)).
Proof.
  rewrite Read_parse_eq. split.
  - intros Hr.
    destruct (ReadString ssObj) as [[tag s1]|]; [| by left].
    case_bool_decide as Htag; [done |].
    subst tag. right. exists s1. split; [done |].
    destruct (stream_read 4 s1) as [[magic s2]|]; [| by left].
    case_bool_decide as Hmagic; [done |].
    subst magic. right. exists s2. split; [done |].
    by destruct (Unserialize (heap w obj) s2) as [o' [rest|]].
  - intros [-> | (s1 & -> & [-> | (s2 & -> & Hu)])]; [done | ..].
    + by rewrite bool_decide_false by naive_solver.
    + rewrite !bool_decide_false by naive_solver.
      destruct (Unserialize (heap w obj) s2) as [o' [rest|]]; naive_solver.
Qed.

(** [Read] never lets an exception out. *)
Lemma Read_total flatdb obj fDryRun w :
  ∃ r w', Read flatdb obj fDryRun w = (Some r, w').
Proof.
  rewrite Read_eq. repeat case_match; eauto.
Qed.

(** [Read] writes no file. *)
Lemma Read_files flatdb obj fDryRun w :
  files (snd (Read flatdb obj fDryRun w)) = files w ∧
  unwritable (snd (Read flatdb obj fDryRun w)) = unwritable w.
Proof.
  rewrite Read_eq. repeat case_match; simplify_eq/=; try done.
  all: match goal with
       | Hp : Read_parse _ _ _ _ = _ |- _ =>
         apply Read_parse_world in Hp as [[-> _] | (s2 & -> & _)]; done
       end.
Qed.
(** [Read] changes nothing of how writes fail. *)
Lemma Read_torn flatdb obj fDryRun w :
  torn (snd (Read flatdb obj fDryRun w)) = torn w.
Proof.
  rewrite Read_eq. repeat case_match; simplify_eq/=; try done.
  all: match goal with
       | Hp : Read_parse _ _ _ _ = _ |- _ =>
         apply Read_parse_world in Hp as [[-> _] | (s2 & -> & _)]; done
       end.
Qed.
End ReadEffects.

(** ** [Write] *)

Section WriteEffects.
Context {T : Type} {payloadT : Payload T} {host : Host}.
Implicit Types (w : World T) (flatdb : CFlatDB) (obj : ref).

(** Every call of [Write] is on the trace.  On a path that takes a write
    it puts the stream of the object behind its reference into the file and
    returns true.  On the other paths it returns false: the file is as it
    was when the opening is refused, and holds the bytes that got through
    when the write throws. *)
Lemma Write_eq flatdb obj w :
  Write flatdb obj w =
  if decide (pathDB flatdb ∈ unwritable w) then
    match torn w !! pathDB flatdb with
    | None =>
      (Some false,
       mkWorld (heap w) (files w) (unwritable w) (torn w) (calls w ++ [CallWrite obj]))
    | Some n =>
      (Some false,
       mkWorld (heap w)
               (<[pathDB flatdb := take n (Write_stream flatdb (heap w obj))]> (files w))
               (unwritable w) (torn w) (calls w ++ [CallWrite obj]))
    end
  else
    (Some true,
     mkWorld (heap w)
             (<[pathDB flatdb := Write_stream flatdb (heap w obj)]> (files w))
             (unwritable w) (torn w) (calls w ++ [CallWrite obj])).
Proof.
  unfold Write, bind, try_catch, log, get_obj, fopen_wb, fwrite, ret; cbn.
  destruct (decide (pathDB flatdb ∈ unwritable w)) as [Hin | Hout];
    destruct (torn w !! pathDB flatdb) as [n|] eqn:Htorn;
    repeat (case_decide; cbn); rewrite ?Htorn, ?insert_insert_eq;
    try done; intuition congruence.
Qed.

Lemma Write_calls flatdb obj w :
  calls (snd (Write flatdb obj w)) = calls w ++ [CallWrite obj].
Proof. rewrite Write_eq. case_decide; [| done]. by case_match. Qed.

(** [Write] returns true on the paths that take a write, and what it
    returns depends on the path only. *)
Lemma Write_true_iff flatdb obj w :
  fst (Write flatdb obj w) = Some true ↔ pathDB flatdb ∉ unwritable w.
Proof.
  rewrite Write_eq. case_decide; [| done].
  case_match; cbn; split; intros ?; done.
Qed.

(** What a [Write] that returned true has done. *)
Lemma Write_true_inv flatdb obj w w1 :
  Write flatdb obj w = (Some true, w1) →
  (pathDB flatdb ∉ unwritable w) ∧
  w1 = mkWorld (heap w)
               (<[pathDB flatdb := Write_stream flatdb (heap w obj)]> (files w))
               (unwritable w) (torn w) (calls w ++ [CallWrite obj]).
Proof.
  rewrite Write_eq. case_decide; [by case_match |].
  by intros [= <-].
Qed.
End WriteEffects.

(** ** Properties of [Read] *)

Section ReadResults.
Context {T : Type} {payloadT : Payload T} {host : Host}.
Implicit Types (w : World T) (flatdb : CFlatDB) (obj : ref).

(** When the read of the checksum of a file shorter than a checksum
    raises, the catch of the first [try] block gives [HashReadError]. *)
Lemma Read_truncated_raises flatdb obj fDryRun w filein :
  files w !! pathDB flatdb = Some filein →
  file_size filein < sizeof_uint256 →
  read_uint256 filein = None →
  Read flatdb obj fDryRun w = (Some HashReadError, w).
Proof.
  intros Hfile Hshort Hraise.
  rewrite Read_eq, Hfile, Read_data_and_hash_eq, body_length_clamped
    by (unfold file_size in *; lia).
  cbn. rewrite file_read_Some by (cbn; lia). cbn.
  by rewrite drop_0, Hraise.
Qed.


(** C4: the checksum of the data read is compared with the checksum read
    after it before anything else is looked at; when they differ [Read]
    returns [IncorrectHash] and the world (the payload, the trace of calls
    on it, the files) is as it was, whatever the data would parse to. *)
Theorem Read_checksum_first flatdb obj fDryRun w filein vchData rest hashIn rest' :
  files w !! pathDB flatdb = Some filein →
  file_read (Z.to_nat (body_length (file_size filein))) filein = Some (vchData, rest) →
  read_uint256 rest = Some (hashIn, rest') →
  hashIn ≠ Hash vchData →
  Read flatdb obj fDryRun w = (Some IncorrectHash, w).
Proof.
  intros Hfile Hdata Hhash Hne.
  rewrite Read_eq, Hfile, Read_data_and_hash_eq, Hdata; cbn.
  rewrite Hhash; cbn.
  by rewrite bool_decide_true.
Qed.

(** C5: once the checksum has passed, the type-tag is judged first: a
    parsed tag other than the expected one gives [IncorrectMagicMessage]
    whatever follows it; with the expected tag, four network-tag bytes
    other than the expected ones give [IncorrectMagicNumber].  The world
    is as it was in both cases. *)
Theorem Read_tag_order flatdb obj fDryRun w filein vchData rest rest' tag s1 :
  files w !! pathDB flatdb = Some filein →
  file_read (Z.to_nat (body_length (file_size filein))) filein = Some (vchData, rest) →
  read_uint256 rest = Some (Hash vchData, rest') →
  ReadString vchData = Some (tag, s1) →
  (tag ≠ strMagicMessage flatdb →
   Read flatdb obj fDryRun w = (Some IncorrectMagicMessage, w)) ∧
  (tag = strMagicMessage flatdb →
   ∀ pchMsgTmp s2,
     stream_read 4 s1 = Some (pchMsgTmp, s2) →
     pchMsgTmp ≠ FLATDATA MessageStart →
     Read flatdb obj fDryRun w = (Some IncorrectMagicNumber, w)).
Proof.
  intros Hfile Hdata Hhash Htag.
  assert (∀ r, Read_parse flatdb obj vchData w = (Some (Some r), w) →
               Read flatdb obj fDryRun w = (Some r, w)) as Hread.
  { intros r Hparse.
    rewrite Read_eq, Hfile, Read_data_and_hash_eq, Hdata; cbn.
    rewrite Hhash; cbn.
    rewrite bool_decide_false by naive_solver.
    by rewrite Hparse. }
  split.
  - intros Hne. apply Hread. rewrite Read_parse_eq, Htag.
    by rewrite bool_decide_true.
  - intros -> pchMsgTmp s2 Hmagic Hne. apply Hread.
    rewrite Read_parse_eq, Htag, Hmagic.
    rewrite bool_decide_false by naive_solver.
    by rewrite bool_decide_true.
Qed.

(** C6: once the checksum has passed, an exception out of the parsing
    block (the type-tag, the network-tag or the payload) makes [Read] call
    [Clear] on the object as the block left it, and return
    [IncorrectFormat]. *)
Theorem Read_exception_clears flatdb obj fDryRun w filein vchData rest rest' w1 :
  files w !! pathDB flatdb = Some filein →
  file_read (Z.to_nat (body_length (file_size filein))) filein = Some (vchData, rest) →
  read_uint256 rest = Some (Hash vchData, rest') →
  Read_parse flatdb obj vchData w = (None, w1) →
  ∃ w', Read flatdb obj fDryRun w = (Some IncorrectFormat, w') ∧
        heap w' obj = Clear (heap w1 obj) ∧
        calls w' = calls w1 ++ [CallClear obj] ∧
        files w' = files w.
Proof.
  intros Hfile Hdata Hhash Hparse.
  exists (after_Clear obj w1). split; [| split; [| split]].
  - rewrite Read_eq, Hfile, Read_data_and_hash_eq, Hdata; cbn.
    rewrite Hhash; cbn.
    rewrite bool_decide_false by naive_solver.
    by rewrite Hparse.
  - cbn. apply fn_lookup_insert.
  - done.
  - apply Read_parse_world in Hparse as [[-> _] | (s2 & -> & _)]; done.
Qed.
End ReadResults.

Section ReadTrace.
Context {T : Type} {payloadT : Payload T} {host : Host}.
Implicit Types (w : World T) (flatdb : CFlatDB) (obj : ref).

(** Closes one branch of a statement "the trace grew by these calls, and
    such a call is among them iff ..". *)
Local Ltac trace_tail :=
  split; [cbn; rewrite ?app_nil_r, <- ?app_assoc; reflexivity |];
  intros ?; rewrite ?elem_of_cons, ?elem_of_nil; intuition congruence.

(** Refutes that a code is in a list of other codes. *)
Local Ltac not_listed :=
  let Hin := fresh "Hin" in
  intros Hin;
  repeat (apply elem_of_cons in Hin as [Hin | Hin]; [discriminate |]);
  by apply elem_of_nil in Hin.

(** What a [Read] that returns [Ok] has gone through. *)
Lemma Read_Ok_inv flatdb obj fDryRun w w1 :
  Read flatdb obj fDryRun w = (Some Ok, w1) →
  ∃ filein vchData rest rest' s1 ssObj o' rest'',
    files w !! pathDB flatdb = Some filein ∧
    file_read (Z.to_nat (body_length (file_size filein))) filein = Some (vchData, rest) ∧
    read_uint256 rest = Some (Hash vchData, rest') ∧
    ReadString vchData = Some (strMagicMessage flatdb, s1) ∧
    stream_read 4 s1 = Some (FLATDATA MessageStart, ssObj) ∧
    Unserialize (heap w obj) ssObj = (o', Some rest'') ∧
    w1 = if fDryRun then after_Unserialize obj o' w
         else after_CheckAndRemove obj (after_Unserialize obj o' w).
Proof.
  rewrite Read_eq.
  destruct (files w !! pathDB flatdb) as [filein|] eqn:Hfile; [| done].
  rewrite Read_data_and_hash_eq. cbn.
  destruct (file_read _ filein) as [[vchData rest]|] eqn:Hdata; cbn; [| done].
  destruct (read_uint256 rest) as [[hashIn rest']|] eqn:Hhash; cbn; [| done].
  case_bool_decide as Heq; [done |]. subst hashIn.
  rewrite Read_parse_eq.
  destruct (ReadString vchData) as [[tag s1]|] eqn:Htag; [| done].
  case_bool_decide as Heq; [by intros [= ->] |]. subst tag.
  destruct (stream_read 4 s1) as [[magic ssObj]|] eqn:Hmagic; [| done].
  case_bool_decide as Heq; [by intros [= ->] |]. subst magic.
  destruct (Unserialize (heap w obj) ssObj) as [o' [rest''|]] eqn:Hu; [| done].
  intros [= <-]. by exists filein, vchData, rest, rest', s1, ssObj, o', rest''.
Qed.

(** C8: [Read] returns a code, and [CheckAndRemove] is among the calls it
    made exactly when that code is [Ok] and the read was not a dry run;
    the call is on the object that was passed in.  The code is [Ok] exactly
    when the file is there, the data and the checksum are read and agree,
    the two tags are the expected ones and [Unserialize] succeeds on the
    bytes after them.  Then [Unserialize] is the first call and
    [CheckAndRemove], unless the read was a dry run, the second and last;
    the object is what [Unserialize] made of the payload bytes, put through
    [CheckAndRemove] unless the read was a dry run. *)
Theorem Read_CheckAndRemove_iff flatdb obj fDryRun w :
  ∃ r w' evs,
    Read flatdb obj fDryRun w = (Some r, w') ∧
    calls w' = calls w ++ evs ∧
    (∀ o, CallCheckAndRemove o ∈ evs ↔ o = obj ∧ r = Ok ∧ fDryRun = false) ∧
    (r = Ok →
     ∃ filein vchData rest rest' s1 ssObj o' rest'',
       files w !! pathDB flatdb = Some filein ∧
       file_read (Z.to_nat (body_length (file_size filein))) filein
       = Some (vchData, rest) ∧
       read_uint256 rest = Some (Hash vchData, rest') ∧
       ReadString vchData = Some (strMagicMessage flatdb, s1) ∧
       stream_read 4 s1 = Some (FLATDATA MessageStart, ssObj) ∧
       Unserialize (heap w obj) ssObj = (o', Some rest'') ∧
       evs = CallUnserialize obj :: (if fDryRun then [] else [CallCheckAndRemove obj]) ∧
       heap w' obj = if fDryRun then o' else CheckAndRemove o') ∧
    ((∃ filein vchData rest rest' s1 ssObj o' rest'',
        files w !! pathDB flatdb = Some filein ∧
        file_read (Z.to_nat (body_length (file_size filein))) filein
        = Some (vchData, rest) ∧
        read_uint256 rest = Some (Hash vchData, rest') ∧
        ReadString vchData = Some (strMagicMessage flatdb, s1) ∧
        stream_read 4 s1 = Some (FLATDATA MessageStart, ssObj) ∧
        Unserialize (heap w obj) ssObj = (o', Some rest'')) →
     r = Ok).
Proof.
  destruct (Read_total flatdb obj fDryRun w) as (r & w' & Hread).
  exists r, w', (drop (length (calls w)) (calls w')).
  split; [done |].
  assert (r = Ok →
          ∃ filein vchData rest rest' s1 ssObj o' rest'',
            files w !! pathDB flatdb = Some filein ∧
            file_read (Z.to_nat (body_length (file_size filein))) filein
            = Some (vchData, rest) ∧
            read_uint256 rest = Some (Hash vchData, rest') ∧
            ReadString vchData = Some (strMagicMessage flatdb, s1) ∧
            stream_read 4 s1 = Some (FLATDATA MessageStart, ssObj) ∧
            Unserialize (heap w obj) ssObj = (o', Some rest'') ∧
            w' = if fDryRun then after_Unserialize obj o' w
                 else after_CheckAndRemove obj (after_Unserialize obj o' w))
    as Hinv.
  { intros ->. by apply Read_Ok_inv. }
  assert ((∃ filein vchData rest rest' s1 ssObj o' rest'',
             files w !! pathDB flatdb = Some filein ∧
             file_read (Z.to_nat (body_length (file_size filein))) filein
             = Some (vchData, rest) ∧
             read_uint256 rest = Some (Hash vchData, rest') ∧
             ReadString vchData = Some (strMagicMessage flatdb, s1) ∧
             stream_read 4 s1 = Some (FLATDATA MessageStart, ssObj) ∧
             Unserialize (heap w obj) ssObj = (o', Some rest'')) →
          r = Ok) as Hconv.
  { intros (filein & vchData & rest & rest' & s1 & ssObj & o' & rest''
            & Hfile & Hdata & Hhash & Htag & Hmagic & Hu).
    revert Hread.
    rewrite Read_eq, Hfile, Read_data_and_hash_eq, Hdata. cbn.
    rewrite Hhash. cbn. rewrite bool_decide_false by (by intros []).
    rewrite Read_parse_eq, Htag, bool_decide_false by (by intros []).
    rewrite Hmagic, bool_decide_false by (by intros []).
    rewrite Hu. by destruct fDryRun; intros [= <- _]. }
  assert (calls w' = calls w ++ drop (length (calls w)) (calls w') ∧
          ∀ o, CallCheckAndRemove o ∈ drop (length (calls w)) (calls w')
               ↔ o = obj ∧ r = Ok ∧ fDryRun = false) as [Hcalls Hhook].
  { revert Hread. clear Hinv Hconv. rewrite Read_eq.
    destruct (files w !! pathDB flatdb) as [filein|]; cycle 1.
    { intros [= <- <-]. rewrite drop_all. trace_tail. }
    destruct (fst _) as [[vchData hashIn]|]; cycle 1.
    { intros [= <- <-]. rewrite drop_all. trace_tail. }
    case_bool_decide.
    { intros [= <- <-]. rewrite drop_all. trace_tail. }
    destruct (Read_parse flatdb obj vchData w) as [r1 w1] eqn:Hparse.
    apply Read_parse_world in Hparse as [[-> Hr] | (s2 & -> & ->)].
    - destruct Hr as [-> | [-> | ->]]; intros [= <- <-];
        cbn [calls after_Clear]; rewrite ?drop_app_length, ?drop_all; trace_tail.
    - destruct (Unserialize (heap w obj) s2) as [o' [rest|]]; cbn;
        [destruct fDryRun |]; intros [= <- <-]; cbn;
        rewrite <- ?app_assoc, drop_app_length; cbn [app]; trace_tail. }
  split; [done |]. split; [done |]. split; [| done].
  intros Hr. destruct (Hinv Hr)
    as (filein & vchData & rest & rest' & s1 & ssObj & o' & rest''
        & Hfile & Hdata & Hhash & Htag & Hmagic & Hu & ->).
  exists filein, vchData, rest, rest', s1, ssObj, o', rest''.
  split_and!; try done.
  - destruct fDryRun; cbn; by rewrite <- ?app_assoc, drop_app_length.
  - destruct fDryRun; cbn; by rewrite !fn_lookup_insert.
Qed.

(** The five codes that [Read] returns before it has touched anything. *)
Lemma Read_error_inv flatdb obj fDryRun w r w' :
  Read flatdb obj fDryRun w = (Some r, w') →
  r ∈ [FileError; HashReadError; IncorrectHash;
       IncorrectMagicMessage; IncorrectMagicNumber] →
  w' = w.
Proof.
  rewrite Read_eq.
  destruct (files w !! pathDB flatdb) as [filein|]; [| by intros [= <- <-]].
  destruct (fst _) as [[vchData hashIn]|]; [| by intros [= <- <-]].
  case_bool_decide; [by intros [= <- <-] |].
  destruct (Read_parse flatdb obj vchData w) as [r1 w1] eqn:Hparse.
  apply Read_parse_world in Hparse as [[-> Hr] | (s2 & -> & ->)].
  - destruct Hr as [-> | [-> | ->]]; intros [= <- <-]; [not_listed | done ..].
  - destruct (snd (Unserialize (heap w obj) s2)); intros [= <- <-]; not_listed.
Qed.

(** [IncorrectFormat] comes after [Clear], and after nothing else than
    [Unserialize] on the same object. *)
Lemma Read_IncorrectFormat_inv flatdb obj fDryRun w w' :
  Read flatdb obj fDryRun w = (Some IncorrectFormat, w') →
  ∃ w1, w' = after_Clear obj w1 ∧
        (w1 = w ∨ ∃ o', w1 = after_Unserialize obj o' w).
Proof.
  rewrite Read_eq.
  destruct (files w !! pathDB flatdb) as [filein|]; [| done].
  destruct (fst _) as [[vchData hashIn]|]; [| done].
  case_bool_decide; [done |].
  destruct (Read_parse flatdb obj vchData w) as [r1 w1] eqn:Hparse.
  apply Read_parse_world in Hparse as [[-> Hr] | (s2 & -> & ->)].
  - destruct Hr as [-> | [-> | ->]]; intros [= <-]; eauto.
  - destruct (snd (Unserialize (heap w obj) s2)); intros [= <-]; eauto.
Qed.

(** C9: when [Read] returns [FileError], [HashReadError], [IncorrectHash],
    [IncorrectMagicMessage] or [IncorrectMagicNumber] the world is as it
    was: the object was neither filled nor cleared.  When it returns
    [IncorrectFormat] the object is the result of [Clear], and no other
    object has changed. *)
Theorem Read_error_leaves_payload flatdb obj fDryRun w r w' :
  Read flatdb obj fDryRun w = (Some r, w') →
  (r ∈ [FileError; HashReadError; IncorrectHash;
        IncorrectMagicMessage; IncorrectMagicNumber] → w' = w) ∧
  (r = IncorrectFormat →
   (∃ o', heap w' obj = Clear o') ∧
   ∀ obj', obj' ≠ obj → heap w' obj' = heap w obj').
Proof.
  intros Hread. split; [by eapply Read_error_inv |].
  intros ->. apply Read_IncorrectFormat_inv in Hread as (w1 & -> & Hw1).
  split; [by eexists; apply fn_lookup_insert |].
  intros obj' Hne. cbn. rewrite fn_lookup_insert_ne by done.
  destruct Hw1 as [-> | [o' ->]]; [done |].
  cbn. by rewrite fn_lookup_insert_ne.
Qed.
End ReadTrace.

(** ** Writing, then reading *)

Section RoundTrip.
Context {T : Type} {payloadT : Payload T} {host : Host}.
Implicit Types (w : World T) (flatdb : CFlatDB) (obj : ref).

Lemma Write_stream_eq flatdb (o : T) :
  Write_stream flatdb o =
  let body := WriteString (strMagicMessage flatdb) ++ FLATDATA MessageStart ++ Serialize o in
  body ++ Hash body.
Proof. unfold Write_stream. cbn. by rewrite <- !app_assoc. Qed.

(** [Read] of a file that [Write] made for [P]. *)
Lemma Read_image flatdb obj fDryRun w (P : T) :
  files w !! pathDB flatdb = Some (Write_stream flatdb P) →
  (∀ rest, ReadString (WriteString (strMagicMessage flatdb) ++ rest)
           = Some (strMagicMessage flatdb, rest)) →
  (∀ o, ∃ rest, Unserialize o (Serialize P) = (P, Some rest)) →
  (∀ l, length (Hash l) = 32%nat) →
  file_size (Write_stream flatdb P) < 2^31 →
  Read flatdb obj fDryRun w =
  (Some Ok, if fDryRun then after_Unserialize obj P w
            else after_CheckAndRemove obj (after_Unserialize obj P w)).
Proof.
  intros Hfile Hstring Hpayload Hhash Hsize.
  rewrite Write_stream_eq in Hfile, Hsize. cbn zeta in Hfile, Hsize.
  set (body := WriteString (strMagicMessage flatdb)
               ++ FLATDATA MessageStart ++ Serialize P) in *.
  assert (Z.to_nat (body_length (file_size (body ++ Hash body))) = length body) as Hlen.
  { unfold file_size in *. rewrite length_app, Hhash in *.
    rewrite body_length_exact by (unfold sizeof_uint256; lia).
    unfold sizeof_uint256. lia. }
  rewrite Read_eq, Hfile, Read_data_and_hash_eq, Hlen, file_read_app. cbn.
  rewrite read_uint256_exact by done. cbn.
  rewrite bool_decide_false by naive_solver.
  rewrite Read_parse_eq. subst body. rewrite Hstring.
  rewrite bool_decide_false by naive_solver.
  change 4%nat with (length (FLATDATA MessageStart)).
  rewrite stream_read_app.
  rewrite bool_decide_false by naive_solver.
  destruct (Hpayload (heap w obj)) as [rest ->].
  by destruct fDryRun.
Qed.

(** C7, as the code has it: after a [Write] of [P] that returned true, a
    [Read] with the same tags returns [Ok] and leaves [CheckAndRemove P]
    behind the reference it was given, and [P] itself only when it was a dry
    run.  The payload's [Unserialize] has to undo its [Serialize], the
    string codec has to read back the tag it wrote, the checksum has to be
    of 32 bytes and the file has to stay below 2^31 bytes. *)
Theorem Write_Read_roundtrip flatdb src dst fDryRun w w1 :
  let P := heap w src in
  Write flatdb src w = (Some true, w1) →
  (∀ rest, ReadString (WriteString (strMagicMessage flatdb) ++ rest)
           = Some (strMagicMessage flatdb, rest)) →
  (∀ o, ∃ rest, Unserialize o (Serialize P) = (P, Some rest)) →
  (∀ l, length (Hash l) = 32%nat) →
  file_size (Write_stream flatdb P) < 2^31 →
  ∃ w2,
    Read flatdb dst fDryRun w1 = (Some Ok, w2) ∧
    heap w2 dst = if fDryRun then P else CheckAndRemove P.
Proof.
  intros P Hwrite Hstring Hpayload Hhash Hsize.
  apply Write_true_inv in Hwrite as [_ ->].
  erewrite Read_image; [| by apply lookup_insert_eq | done ..].
  eexists. split; [reflexivity |].
  destruct fDryRun; cbn; by rewrite !fn_lookup_insert.
Qed.
End RoundTrip.

(** ** [LoadFlatDB] and [DumpFlatDB] *)

Section Policy.
Context {T : Type} {payloadT : Payload T} {host : Host}.
Implicit Types (w : World T) (flatdb : CFlatDB) (obj : ref).

Lemma Write_total flatdb obj w :
  ∃ b, Write flatdb obj w = (Some b, snd (Write flatdb obj w)).
Proof. rewrite Write_eq. case_decide; [case_match |]; eauto. Qed.

Lemma LoadFlatDB_eq flatdb obj w r w1 :
  Read flatdb obj false w = (Some r, w1) →
  LoadFlatDB obj flatdb w =
  if proceeds r then (Some true, snd (Read flatdb obj false w1))
  else (Some false, w1).
Proof.
  intros Hread. unfold LoadFlatDB, fDryRun_default, bind at 1. rewrite Hread.
  destruct (Read_total flatdb obj false w1) as (r2 & w2 & Hread2).
  destruct r; repeat (case_bool_decide; try done);
    cbn; unfold bind, ret; by rewrite Hread2.
Qed.

Lemma DumpFlatDB_eq flatdb obj w r w1 :
  Read flatdb obj true w = (Some r, w1) →
  DumpFlatDB obj flatdb w =
  if proceeds r then (Some true, snd (Write flatdb obj w1))
  else (Some false, w1).
Proof.
  intros Hread. unfold DumpFlatDB, bind at 1. rewrite Hread.
  destruct (Write_total flatdb obj w1) as (b & Hwrite).
  destruct r; repeat (case_bool_decide; try done);
    cbn; unfold bind, ret; by rewrite Hwrite.
Qed.

(** C1, as the code has it: [LoadFlatDB] and [DumpFlatDB] return false on
    [HashReadError], [IncorrectHash], [IncorrectMagicMessage] and
    [IncorrectMagicNumber], and go on (return true) on [Ok], [FileError]
    and [IncorrectFormat]; [DumpFlatDB] calls [Write] exactly when it goes
    on. *)
Theorem Load_Dump_policy flatdb obj w :
  (∃ r, fst (Read flatdb obj false w) = Some r ∧
        fst (LoadFlatDB obj flatdb w) = Some (proceeds r)) ∧
  (∃ r w1 w2,
     Read flatdb obj true w = (Some r, w1) ∧
     DumpFlatDB obj flatdb w = (Some (proceeds r), w2) ∧
     calls w2 = calls w1 ++ (if proceeds r then [CallWrite obj] else []) ∧
     (proceeds r = false → w2 = w1)) ∧
  ∀ r, proceeds r = false ↔
       r ∈ [HashReadError; IncorrectHash; IncorrectMagicMessage; IncorrectMagicNumber].
Proof.
  split; [| split].
  - destruct (Read_total flatdb obj false w) as (r & w1 & Hread).
    exists r. rewrite (LoadFlatDB_eq _ _ _ _ _ Hread), Hread.
    split; [done |]. by destruct (proceeds r).
  - destruct (Read_total flatdb obj true w) as (r & w1 & Hread).
    exists r, w1. rewrite (DumpFlatDB_eq _ _ _ _ _ Hread).
    destruct (proceeds r).
    + eexists. split; [done |]. split; [done |].
      split; [apply Write_calls | done].
    + exists w1. by rewrite app_nil_r.
  - intros r. rewrite !elem_of_cons, elem_of_nil.
    destruct r; cbn; intuition congruence.
Qed.

(** C3: when the verifying [Read] of [DumpFlatDB] returns [HashReadError],
    [DumpFlatDB] returns false and the world is as it was before the
    call: nothing was added to the trace, so [Write] was not called, and
    the files are the same. *)
Theorem DumpFlatDB_HashReadError_aborts flatdb obj w :
  fst (Read flatdb obj true w) = Some HashReadError →
  DumpFlatDB obj flatdb w = (Some false, w) ∧
  ∀ o, CallWrite o ∉ drop (length (calls w)) (calls (snd (DumpFlatDB obj flatdb w))).
Proof.
  intros Hread.
  destruct (Read flatdb obj true w) as [r w1] eqn:Hr. cbn in Hread. subst r.
  pose proof (Read_error_inv flatdb obj true w _ _ Hr) as Hw.
  rewrite (DumpFlatDB_eq _ _ _ _ _ Hr). cbn.
  rewrite Hw by (rewrite !elem_of_cons; auto).
  split; [done |]. intros o. rewrite drop_all. apply not_elem_of_nil.
Qed.

(** C10: [DumpFlatDB] verifies the file with a [Read] on the reference it
    was given.  When that [Read] returns [Ok], the object behind the
    reference is what [Unserialize] made of the payload bytes of the file,
    [Write] runs on it next, and what is written to the file is the stream
    of that object, not of the object the caller passed in. *)
Theorem DumpFlatDB_saves_file_payload flatdb obj w w1 :
  Read flatdb obj true w = (Some Ok, w1) →
  (∃ filein vchData rest s1 ssObj,
     files w !! pathDB flatdb = Some filein ∧
     file_read (Z.to_nat (body_length (file_size filein))) filein = Some (vchData, rest) ∧
     ReadString vchData = Some (strMagicMessage flatdb, s1) ∧
     stream_read 4 s1 = Some (FLATDATA MessageStart, ssObj) ∧
     heap w1 obj = fst (Unserialize (heap w obj) ssObj)) ∧
  ∃ w2,
    DumpFlatDB obj flatdb w = (Some true, w2) ∧
    heap w2 obj = heap w1 obj ∧
    calls w2 = calls w ++ [CallUnserialize obj; CallWrite obj] ∧
    (pathDB flatdb ∉ unwritable w →
     files w2 !! pathDB flatdb = Some (Write_stream flatdb (heap w1 obj))).
Proof.
  intros Hread. rewrite (DumpFlatDB_eq _ _ _ _ _ Hread). cbn.
  apply Read_Ok_inv in Hread
    as (filein & vchData & rest & rest' & s1 & ssObj & o' & rest''
        & Hfile & Hdata & Hhash & Htag & Hmagic & Hu & ->).
  split.
  - exists filein, vchData, rest, s1, ssObj.
    split_and!; try done. cbn. by rewrite fn_lookup_insert, Hu.
  - eexists. split; [reflexivity |]. rewrite Write_eq.
    case_decide; [case_match |]; cbn; (split; [done |]);
      (split; [by rewrite <- app_assoc |]); [done .. |].
    intros _. by rewrite lookup_insert_eq, fn_lookup_insert.
Qed.

(** X17: with a file on disk that [Write] made for [Q], and a [Write] that
    returns true, [DumpFlatDB] returns true, leaves every file as it is and
    [Q] behind the caller's reference, whatever was there to be saved.  The
    payload's [Unserialize] has to undo its [Serialize], the string codec
    has to read back the tag it wrote, the checksum has to be of 32 bytes
    and the file has to stay below 2^31 bytes. *)
Lemma DumpFlatDB_keeps_valid_file flatdb obj w (Q : T) :
  files w !! pathDB flatdb = Some (Write_stream flatdb Q) →
  fst (Write flatdb obj w) = Some true →
  (∀ rest, ReadString (WriteString (strMagicMessage flatdb) ++ rest)
           = Some (strMagicMessage flatdb, rest)) →
  (∀ o, ∃ rest, Unserialize o (Serialize Q) = (Q, Some rest)) →
  (∀ l, length (Hash l) = 32%nat) →
  file_size (Write_stream flatdb Q) < 2^31 →
  ∃ w2, DumpFlatDB obj flatdb w = (Some true, w2) ∧
        heap w2 obj = Q ∧
        files w2 = files w.
Proof.
  intros Hfile Hwrite Hstring Hpayload Hhash Hsize.
  apply Write_true_iff in Hwrite.
  pose proof (Read_image flatdb obj true w Q Hfile Hstring Hpayload Hhash Hsize)
    as Hread.
  rewrite (DumpFlatDB_eq _ _ _ _ _ Hread). cbn.
  eexists. split; [reflexivity |]. rewrite Write_eq, decide_False by done.
  cbn. rewrite fn_lookup_insert. split; [done |].
  by apply insert_id.
Qed.
End Policy.

(** ** The functions at work on the instance *)

Lemma Toy_Hash_length (l : list byte) : length (Hash l) = 32%nat.
Proof. reflexivity. Qed.

Lemma Toy_ReadString_tag (rest : list byte) :
  ReadString (WriteString (strMagicMessage Toy.flatdb) ++ rest)
  = Some (strMagicMessage Toy.flatdb, rest).
Proof. reflexivity. Qed.

Lemma Toy_Unserialize_two (a b : byte) (o : list byte) :
  ∃ rest, Unserialize o (Serialize [a; b]) = ([a; b], Some rest).
Proof. by exists []. Qed.

(** C1 fails as stated: a file whose checksum does not match makes [Read]
    return [IncorrectHash], and both [LoadFlatDB] and [DumpFlatDB] return
    false on it, [DumpFlatDB] without a call of [Write]; the same for a
    file of another type-tag and for one of another network-tag. *)
Lemma Load_Dump_abort_on_IncorrectHash :
  let w := Toy.world_with [x07] Toy.corrupted_file in
  let w' := Toy.world_with [x07] Toy.foreign_type_file in
  let w'' := Toy.world_with [x07] Toy.foreign_network_file in
  (fst (Read Toy.flatdb 0%nat false w) = Some IncorrectHash ∧
   fst (LoadFlatDB 0%nat Toy.flatdb w) = Some false ∧
   DumpFlatDB 0%nat Toy.flatdb w = (Some false, w)) ∧
  (fst (Read Toy.flatdb 0%nat false w') = Some IncorrectMagicMessage ∧
   fst (LoadFlatDB 0%nat Toy.flatdb w') = Some false ∧
   DumpFlatDB 0%nat Toy.flatdb w' = (Some false, w')) ∧
  (fst (Read Toy.flatdb 0%nat false w'') = Some IncorrectMagicNumber ∧
   fst (LoadFlatDB 0%nat Toy.flatdb w'') = Some false ∧
   DumpFlatDB 0%nat Toy.flatdb w'' = (Some false, w'')).
Proof. vm_compute. repeat split. Qed.


Lemma DumpFlatDB_HashReadError_aborts_witness :
  let w := Toy.world_with [x07] Toy.short_file in
  DumpFlatDB 0%nat Toy.flatdb w = (Some false, w) ∧
  ∀ o, CallWrite o ∉ drop (length (calls w)) (calls (snd (DumpFlatDB 0%nat Toy.flatdb w))).
Proof.
  intros w.
  apply (DumpFlatDB_HashReadError_aborts Toy.flatdb 0%nat w).
  vm_compute. reflexivity.
Defined.

Lemma Read_checksum_first_witness :
  let w := Toy.world_with [x07] Toy.corrupted_file in
  Read Toy.flatdb 0%nat false w = (Some IncorrectHash, w).
Proof.
  intros w.
  apply (Read_checksum_first Toy.flatdb 0%nat false w Toy.corrupted_file
           (take 11 Toy.corrupted_file) (drop 11 Toy.corrupted_file)
           (drop 11 Toy.corrupted_file) []).
  - reflexivity.
  - vm_compute. reflexivity.
  - vm_compute. reflexivity.
  - vm_compute. discriminate.
Defined.

Lemma Read_tag_order_witness :
  let w := Toy.world_with [x07] Toy.foreign_type_file in
  let w' := Toy.world_with [x07] Toy.foreign_network_file in
  Read Toy.flatdb 0%nat false w = (Some IncorrectMagicMessage, w) ∧
  Read Toy.flatdb 0%nat false w' = (Some IncorrectMagicNumber, w').
Proof.
  intros w w'. split.
  - apply (Read_tag_order Toy.flatdb 0%nat false w Toy.foreign_type_file
             (take 10 Toy.foreign_type_file) (drop 10 Toy.foreign_type_file) []
             "gov" [x00; x00; x00; x00; x01; x01]).
    + reflexivity.
    + vm_compute. reflexivity.
    + vm_compute. reflexivity.
    + vm_compute. reflexivity.
    + discriminate.
  - apply (Read_tag_order Toy.flatdb 0%nat false w' Toy.foreign_network_file
             (take 10 Toy.foreign_network_file) (drop 10 Toy.foreign_network_file) []
             "mnc" [xce; xe2; xca; xff; x01; x01])
      with (pchMsgTmp := [xce; xe2; xca; xff]) (s2 := [x01; x01]).
    + reflexivity.
    + vm_compute. reflexivity.
    + vm_compute. reflexivity.
    + vm_compute. reflexivity.
    + reflexivity.
    + vm_compute. reflexivity.
    + discriminate.
Defined.

Lemma Read_exception_clears_witness :
  let w := Toy.world_with [x07] Toy.broken_payload_file in
  ∃ w', Read Toy.flatdb 0%nat false w = (Some IncorrectFormat, w') ∧
        heap w' 0%nat = Clear (heap (after_Unserialize 0%nat [x01] w) 0%nat) ∧
        calls w' = calls (after_Unserialize 0%nat [x01] w) ++ [CallClear 0%nat] ∧
        files w' = files w.
Proof.
  intros w.
  apply (Read_exception_clears Toy.flatdb 0%nat false w Toy.broken_payload_file
           (take 10 Toy.broken_payload_file) (drop 10 Toy.broken_payload_file) []
           (after_Unserialize 0%nat [x01] w)).
  - reflexivity.
  - vm_compute. reflexivity.
  - vm_compute. reflexivity.
  - vm_compute. reflexivity.
Defined.

Lemma Read_CheckAndRemove_iff_witness :
  let w := Toy.world_with [x07] (Toy.image [x01; x00]) in
  ∃ w' evs,
    Read Toy.flatdb 0%nat false w = (Some Ok, w') ∧
    calls w' = calls w ++ evs ∧
    CallCheckAndRemove 0%nat ∈ evs ∧
    evs = [CallUnserialize 0%nat; CallCheckAndRemove 0%nat] ∧
    heap w' 0%nat = [x01].
Proof.
  intros w.
  destruct (Read_CheckAndRemove_iff Toy.flatdb 0%nat false w)
    as (r & w' & evs & Hread & Hcalls & Hhook & Hok & Hconv).
  assert (r = Ok) as Hr.
  { apply Hconv.
    exists (Toy.image [x01; x00]), (take 11 (Toy.image [x01; x00])),
           (drop 11 (Toy.image [x01; x00])), [],
           (drop 4 (take 11 (Toy.image [x01; x00]))),
           [x02; x01; x00], [x01; x00], [].
    repeat split; vm_compute; reflexivity. }
  destruct (Hok Hr) as (_ & _ & _ & _ & _ & _ & _ & _ & _ & _ & _ & _ & _ & _ & Hevs & _).
  exists w', evs.
  split; [rewrite <- Hr; exact Hread |].
  split; [exact Hcalls |].
  split; [exact (proj2 (Hhook 0%nat) (conj eq_refl (conj Hr eq_refl))) |].
  split; [exact Hevs |].
  replace w' with (snd (Read Toy.flatdb 0%nat false w))
    by (rewrite Hread; reflexivity).
  vm_compute. reflexivity.
Defined.

Lemma Read_error_leaves_payload_witness :
  let w := Toy.world_with [x07] Toy.foreign_network_file in
  (IncorrectMagicNumber ∈ [FileError; HashReadError; IncorrectHash;
                           IncorrectMagicMessage; IncorrectMagicNumber] → w = w) ∧
  (IncorrectMagicNumber = IncorrectFormat →
   (∃ o', heap w 0%nat = Clear o') ∧
   ∀ obj', obj' ≠ 0%nat → heap w obj' = heap w obj').
Proof.
  intros w.
  apply (Read_error_leaves_payload Toy.flatdb 0%nat false w IncorrectMagicNumber w).
  vm_compute. reflexivity.
Defined.

(** C7 fails as stated: the payload [[x01; x00]] is written, the file is
    read back with the same tags, [Read] returns [Ok], and the payload is
    [[x01]]: [CheckAndRemove] has run on what was loaded. *)
Lemma Write_Read_changes_payload :
  let w := Toy.world [x01; x00] ∅ in
  let w1 := snd (Write Toy.flatdb 0%nat w) in
  let w2 := snd (Read Toy.flatdb 0%nat false w1) in
  fst (Write Toy.flatdb 0%nat w) = Some true ∧
  fst (Read Toy.flatdb 0%nat false w1) = Some Ok ∧
  heap w 0%nat = [x01; x00] ∧
  heap w2 0%nat = [x01] ∧
  heap w2 0%nat ≠ heap w 0%nat.
Proof. vm_compute. repeat split; discriminate. Qed.

Lemma Write_Read_roundtrip_witness :
  let w := Toy.world [x01; x00] ∅ in
  ∃ w2,
    Read Toy.flatdb 1%nat false (snd (Write Toy.flatdb 0%nat w)) = (Some Ok, w2) ∧
    heap w2 1%nat = CheckAndRemove [x01; x00].
Proof.
  intros w.
  apply (Write_Read_roundtrip Toy.flatdb 0%nat 1%nat false w
           (snd (Write Toy.flatdb 0%nat w))).
  - vm_compute. reflexivity.
  - apply Toy_ReadString_tag.
  - apply Toy_Unserialize_two.
  - apply Toy_Hash_length.
  - reflexivity.
Defined.

(** Without a [Write] that returned true there is no round trip: on a path
    where the write throws after three bytes, [Write] returns false, the
    file is left with three bytes, and the [Read] after it returns
    [HashReadError]. *)
Lemma Write_torn_then_Read :
  let w := Toy.world_torn [x01; x00] ∅ in
  let w1 := snd (Write Toy.flatdb 0%nat w) in
  fst (Write Toy.flatdb 0%nat w) = Some false ∧
  files w1 !! Toy.path = Some (take 3 (Toy.image [x01; x00])) ∧
  fst (Read Toy.flatdb 1%nat false w1) = Some HashReadError.
Proof. vm_compute. repeat split. Qed.

Lemma DumpFlatDB_saves_file_payload_witness :
  let w := Toy.world_with [x07] (Toy.image [x01; x00]) in
  ∃ w2,
    DumpFlatDB 0%nat Toy.flatdb w = (Some true, w2) ∧
    heap w2 0%nat = [x01; x00] ∧
    calls w2 = [CallUnserialize 0%nat; CallWrite 0%nat] ∧
    (Toy.path ∉ (∅ : gset string) →
     files w2 !! Toy.path = Some (Toy.image [x01; x00])).
Proof.
  intros w.
  apply (DumpFlatDB_saves_file_payload Toy.flatdb 0%nat w
           (after_Unserialize 0%nat [x01; x00] w)).
  vm_compute. reflexivity.
Defined.

(** ** More on [Read]: what it leaves alone, and the sizes of files *)

Section ReadMore.
Context {T : Type} {payloadT : Payload T} {host : Host}.
Implicit Types (w : World T) (flatdb : CFlatDB) (obj : ref).

(** From 32 bytes up to the range of [int]: the data is all but the last
    32 bytes, which are the checksum. *)
Lemma Read_data_and_hash_exact (filein : list byte) w :
  sizeof_uint256 ≤ file_size filein < 2^31 →
  fst (Read_data_and_hash filein (body_length (file_size filein)) w)
  = Some (take (length filein - 32) filein, drop (length filein - 32) filein).
Proof.
  intros Hsize. rewrite Read_data_and_hash_eq, body_length_exact by done.
  unfold file_size, sizeof_uint256 in *.
  replace (Z.to_nat (Z.of_nat (length filein) - 32))
    with (length filein - 32)%nat by lia.
  cbn. rewrite file_read_Some by lia. cbn.
  by rewrite read_uint256_exact by (rewrite length_drop; lia).
Qed.

Lemma Read_heap_other flatdb obj fDryRun w obj' :
  obj' ≠ obj → heap (snd (Read flatdb obj fDryRun w)) obj' = heap w obj'.
Proof.
  intros Hne. rewrite Read_eq.
  destruct (files w !! pathDB flatdb) as [filein|]; [| done].
  destruct (fst _) as [[vchData hashIn]|]; [| done].
  case_bool_decide; [done |].
  destruct (Read_parse flatdb obj vchData w) as [r1 w1] eqn:Hparse.
  apply Read_parse_world in Hparse as [[-> Hr] | (s2 & -> & ->)].
  - destruct Hr as [-> | [-> | ->]]; cbn; [by rewrite fn_lookup_insert_ne | done ..].
  - destruct (snd (Unserialize (heap w obj) s2)); [destruct fDryRun |];
      cbn; by rewrite !fn_lookup_insert_ne.
Qed.

(** X1: whatever it returns, [Read] changes no file and no object other
    than the one it was given. *)
Theorem Read_frame flatdb obj fDryRun w :
  files (snd (Read flatdb obj fDryRun w)) = files w ∧
  unwritable (snd (Read flatdb obj fDryRun w)) = unwritable w ∧
  ∀ obj', obj' ≠ obj → heap (snd (Read flatdb obj fDryRun w)) obj' = heap w obj'.
Proof.
  destruct (Read_files flatdb obj fDryRun w) as [Hfiles Hlocked].
  split; [done |]. split; [done |].
  intros obj' Hne. by apply Read_heap_other.
Qed.

(** X2: [Read] returns [HashReadError] exactly when the file could be
    opened and one of the two reads of the first [try] block raised: the
    read of the data, or after it the read of the checksum.  The world is
    then as it was. *)
Theorem Read_HashReadError_iff_raises flatdb obj fDryRun w :
  (fst (Read flatdb obj fDryRun w) = Some HashReadError ↔
   ∃ filein,
     files w !! pathDB flatdb = Some filein ∧
     (file_read (Z.to_nat (body_length (file_size filein))) filein = None ∨
      ∃ vchData rest,
        file_read (Z.to_nat (body_length (file_size filein))) filein
        = Some (vchData, rest) ∧
        read_uint256 rest = None)) ∧
  (fst (Read flatdb obj fDryRun w) = Some HashReadError →
   snd (Read flatdb obj fDryRun w) = w).
Proof.
  split; [| intros Hr; destruct (Read flatdb obj fDryRun w) as [r w'] eqn:Hread;
            cbn in *; subst r; eapply Read_error_inv; [done |];
            apply list_elem_of_In; cbn; tauto].
  rewrite Read_eq.
  destruct (files w !! pathDB flatdb) as [filein|] eqn:Hfile; cycle 1.
  { split; [done | by intros (? & ? & _)]. }
  rewrite Read_data_and_hash_eq. cbn.
  destruct (file_read _ filein) as [[vchData rest]|] eqn:Hdata; cbn; cycle 1.
  { split; [| done]. intros _. exists filein. by split; [| left]. }
  destruct (read_uint256 rest) as [[hashIn rest']|] eqn:Hhash; cbn; cycle 1.
  { split; [| done]. intros _. exists filein. split; [done |]. right. eauto. }
  split; cycle 1.
  { intros (f & [= <-] & [Hnone | (v & r & Hsome & Hnone)]); [congruence |].
    rewrite Hdata in Hsome. injection Hsome as <- <-. congruence. }
  case_bool_decide; [done |].
  destruct (Read_parse flatdb obj vchData w) as [r1 w1] eqn:Hparse.
  apply Read_parse_world in Hparse as [[-> Hr1] | (s2 & -> & ->)].
  - by destruct Hr1 as [-> | [-> | ->]].
  - by destruct (snd (Unserialize (heap w obj) s2)).
Qed.

(** X3: a file of exactly 32 bytes has an empty body.  Unless its bytes are
    the checksum of no bytes, [Read] returns [IncorrectHash] and leaves the
    world alone; when they are, and the type-tag cannot be parsed out of
    nothing, [Read] clears the object and returns [IncorrectFormat]. *)
Theorem Read_bare_checksum flatdb obj fDryRun w filein :
  files w !! pathDB flatdb = Some filein →
  length filein = 32%nat →
  (filein ≠ Hash [] → Read flatdb obj fDryRun w = (Some IncorrectHash, w)) ∧
  (filein = Hash [] → ReadString [] = None →
   ∃ w', Read flatdb obj fDryRun w = (Some IncorrectFormat, w') ∧
         heap w' obj = Clear (heap w obj) ∧
         calls w' = calls w ++ [CallClear obj]).
Proof.
  intros Hfile Hlen.
  assert (Read flatdb obj fDryRun w =
          if bool_decide (filein ≠ Hash []) then (Some IncorrectHash, w)
          else match Read_parse flatdb obj [] w with
               | (None, w') => (Some IncorrectFormat, after_Clear obj w')
               | (Some (Some e), w') => (Some e, w')
               | (Some None, w') =>
                 (Some Ok, if fDryRun then w' else after_CheckAndRemove obj w')
               end) as ->.
  { rewrite Read_eq, Hfile, Read_data_and_hash_exact
      by (unfold file_size, sizeof_uint256; lia).
    by rewrite Hlen. }
  split.
  - intros Hne. by rewrite bool_decide_true.
  - intros Heq Hparse. rewrite bool_decide_false by naive_solver.
    rewrite Read_parse_eq, Hparse.
    exists (after_Clear obj w). split; [done |]. split; [| done].
    cbn. apply fn_lookup_insert.
Qed.

(** X4: for a file size below 2^32, the body length that [Read] computes is
    the size less the 32 bytes of the checksum from 32 bytes up to
    2^31 + 31 bytes, and 0 for every other size: below 32 bytes by the
    clamp, from 2^31 + 32 bytes on because the size does not fit an [int]. *)
Theorem body_length_by_size n :
  0 ≤ n < 2^32 →
  body_length n =
  if bool_decide (sizeof_uint256 ≤ n < 2^31 + sizeof_uint256)
  then n - sizeof_uint256 else 0.
Proof.
  unfold sizeof_uint256. intros Hn. rewrite body_length_eq.
  unfold sizeof_uint256, to_int.
  destruct (decide (n < 2^31 + 32)) as [Hlt | Hge].
  - rewrite Z.mod_small by lia. case_bool_decide; case_match; lia.
  - replace (n - 32 + 2^31) with ((n - 32 - 2^31) + 1 * 2^32) by lia.
    rewrite Z_mod_plus_full, Z.mod_small by lia.
    case_bool_decide; case_match; lia.
Qed.
End ReadMore.

(** ** More on [Write], and on reading what it wrote *)

Section WriteMore.
Context {T : Type} {payloadT : Payload T} {host : Host}.
Implicit Types (w : World T) (flatdb : CFlatDB) (obj : ref).

(** A body followed by its checksum comes apart again. *)
Lemma Read_data_and_hash_sealed (body : list byte) w :
  (∀ l, length (Hash l) = 32%nat) →
  file_size (body ++ Hash body) < 2^31 →
  fst (Read_data_and_hash (body ++ Hash body)
         (body_length (file_size (body ++ Hash body))) w)
  = Some (body, Hash body).
Proof.
  intros Hhash Hsize.
  rewrite Read_data_and_hash_exact
    by (unfold file_size, sizeof_uint256 in *; rewrite length_app, Hhash in *; lia).
  rewrite length_app, Hhash.
  replace (length body + 32 - 32)%nat with (length body) by lia.
  by rewrite take_app_length, drop_app_length.
Qed.

(** X5: [Write] always returns, and returns true exactly when the file was
    opened and the write of the stream did not throw.  It leaves every
    object and every other file as it is.  When it returns true the file at
    [pathDB] holds the stream of the object and nothing of what it held
    before.  When it returns false because the opening was refused, no file
    has changed; when it returns false because the write threw, the file
    has been emptied by the opening and holds the bytes of the stream that
    got through. *)
Theorem Write_effect flatdb obj w :
  ∃ b w',
    Write flatdb obj w = (Some b, w') ∧
    (b = true ↔ pathDB flatdb ∉ unwritable w) ∧
    heap w' = heap w ∧
    (∀ path, path ≠ pathDB flatdb → files w' !! path = files w !! path) ∧
    (b = true →
     files w' = <[pathDB flatdb := Write_stream flatdb (heap w obj)]> (files w)) ∧
    (b = false → torn w !! pathDB flatdb = None → files w' = files w) ∧
    (b = false → ∀ n, torn w !! pathDB flatdb = Some n →
     files w' = <[pathDB flatdb := take n (Write_stream flatdb (heap w obj))]> (files w)).
Proof.
  rewrite Write_eq. case_decide as Hlocked; [case_match eqn:Htorn |];
    eexists _, _; (split; [reflexivity |]); cbn [heap files]; split_and!;
    first [ done
          | by split; [| intros []]
          | by intros path Hne; rewrite lookup_insert_ne
          | by intros _ n' [= <-] ].
Qed.

(** X6: a file that [Write] has written passes the checks of [Read] on its
    size and its checksum, whatever the payload and the string codec are:
    [Read] returns none of [FileError], [HashReadError] and
    [IncorrectHash].  The checksum has to be of 32 bytes and the file below
    2^31 bytes. *)
Theorem Write_then_Read_passes_checksum flatdb src dst fDryRun w :
  pathDB flatdb ∉ unwritable w →
  (∀ l, length (Hash l) = 32%nat) →
  file_size (Write_stream flatdb (heap w src)) < 2^31 →
  ∃ r, fst (Read flatdb dst fDryRun (snd (Write flatdb src w))) = Some r ∧
       r ∈ [Ok; IncorrectMagicMessage; IncorrectMagicNumber; IncorrectFormat].
Proof.
  intros Hopen Hhash Hsize.
  rewrite Write_eq, decide_False by done. cbn [snd].
  set (w1 := mkWorld _ _ _ _ _).
  rewrite Read_eq. cbn [files w1]. rewrite lookup_insert_eq.
  rewrite Write_stream_eq in *. cbn zeta in *.
  rewrite Read_data_and_hash_sealed by done.
  rewrite bool_decide_false by naive_solver.
  destruct (Read_parse flatdb dst _ w1) as [r1 w2] eqn:Hparse.
  apply Read_parse_world in Hparse as [[-> Hr] | (s2 & -> & ->)].
  - destruct Hr as [-> | [-> | ->]]; eexists; (split; [reflexivity |]);
      apply list_elem_of_In; cbn; tauto.
  - destruct (snd (Unserialize (heap w1 dst) s2)); eexists;
      (split; [reflexivity |]); apply list_elem_of_In; cbn; tauto.
Qed.

(** X7: a file written through one handle and read through a handle on the
    same path with another type-tag gives [IncorrectMagicMessage], and the
    object that was to be loaded is not touched.  The string codec has to
    read back the tag it wrote, the checksum has to be of 32 bytes and the
    file has to stay below 2^31 bytes. *)
Theorem Write_then_Read_other_tag flatdb flatdb' src dst fDryRun w :
  pathDB flatdb' = pathDB flatdb →
  strMagicMessage flatdb' ≠ strMagicMessage flatdb →
  pathDB flatdb ∉ unwritable w →
  (∀ rest, ReadString (WriteString (strMagicMessage flatdb) ++ rest)
           = Some (strMagicMessage flatdb, rest)) →
  (∀ l, length (Hash l) = 32%nat) →
  file_size (Write_stream flatdb (heap w src)) < 2^31 →
  Read flatdb' dst fDryRun (snd (Write flatdb src w))
  = (Some IncorrectMagicMessage, snd (Write flatdb src w)).
Proof.
  intros Hpath Htag Hopen Hstring Hhash Hsize.
  rewrite Write_eq, decide_False by done. cbn [snd].
  set (w1 := mkWorld _ _ _ _ _).
  rewrite Read_eq, Hpath. cbn [files w1]. rewrite lookup_insert_eq.
  rewrite Write_stream_eq in *. cbn zeta in *.
  rewrite Read_data_and_hash_sealed by done.
  rewrite bool_decide_false by naive_solver.
  rewrite Read_parse_eq, Hstring.
  by rewrite bool_decide_true.
Qed.
End WriteMore.

(** ** More on [LoadFlatDB] and [DumpFlatDB] *)

Section PolicyMore.
Context {T : Type} {payloadT : Payload T} {host : Host}.
Implicit Types (w : World T) (flatdb : CFlatDB) (obj : ref).

Lemma not_proceeds_listed (r : CFlatDB_ReadResult) :
  proceeds r = false →
  r ∈ [FileError; HashReadError; IncorrectHash;
       IncorrectMagicMessage; IncorrectMagicNumber].
Proof. destruct r; try discriminate; intros _; apply list_elem_of_In; cbn; tauto. Qed.

(** [LoadFlatDB] on a file that [Write] made for [Q]: two full reads. *)
Lemma LoadFlatDB_image flatdb obj w (Q : T) :
  files w !! pathDB flatdb = Some (Write_stream flatdb Q) →
  (∀ rest, ReadString (WriteString (strMagicMessage flatdb) ++ rest)
           = Some (strMagicMessage flatdb, rest)) →
  (∀ o, ∃ rest, Unserialize o (Serialize Q) = (Q, Some rest)) →
  (∀ l, length (Hash l) = 32%nat) →
  file_size (Write_stream flatdb Q) < 2^31 →
  LoadFlatDB obj flatdb w =
  (Some true,
   after_CheckAndRemove obj (after_Unserialize obj Q
     (after_CheckAndRemove obj (after_Unserialize obj Q w)))).
Proof.
  intros Hfile Hstring Hpayload Hhash Hsize.
  pose proof (Read_image flatdb obj false w Q Hfile Hstring Hpayload Hhash Hsize)
    as Hread.
  rewrite (LoadFlatDB_eq _ _ _ _ _ Hread). cbn [proceeds].
  by rewrite (Read_image flatdb obj false _ Q).
Qed.

(** X8: when [LoadFlatDB] or [DumpFlatDB] returns false, nothing has
    happened: the objects, the files and the trace are as before the call. *)
Theorem abort_leaves_world flatdb obj w w' :
  LoadFlatDB obj flatdb w = (Some false, w') ∨
  DumpFlatDB obj flatdb w = (Some false, w') →
  w' = w.
Proof.
  intros [Hload | Hdump].
  - destruct (Read_total flatdb obj false w) as (r & w1 & Hread).
    rewrite (LoadFlatDB_eq _ _ _ _ _ Hread) in Hload.
    destruct (proceeds r) eqn:Hr; [done |]. injection Hload as <-.
    eapply Read_error_inv; [done |]. by apply not_proceeds_listed.
  - destruct (Read_total flatdb obj true w) as (r & w1 & Hread).
    rewrite (DumpFlatDB_eq _ _ _ _ _ Hread) in Hdump.
    destruct (proceeds r) eqn:Hr; [done |]. injection Hdump as <-.
    eapply Read_error_inv; [done |]. by apply not_proceeds_listed.
Qed.

(** X9: with no file on disk [LoadFlatDB] returns true and nothing has
    happened: the object keeps what it held, no file has appeared, and none
    of [Unserialize], [Clear], [CheckAndRemove] and [Write] was called.
    ([GetFilename], which [LoadFlatDB] calls for its log lines, is not on
    the trace.) *)
Theorem LoadFlatDB_missing_file flatdb obj w :
  files w !! pathDB flatdb = None →
  LoadFlatDB obj flatdb w = (Some true, w).
Proof.
  intros Hfile.
  assert (Read flatdb obj false w = (Some FileError, w)) as Hread.
  { by rewrite Read_eq, Hfile. }
  rewrite (LoadFlatDB_eq _ _ _ _ _ Hread). cbn [proceeds].
  by rewrite Hread.
Qed.

(** X10: with a file on disk that [Write] made for [Q], [LoadFlatDB] returns
    true and leaves [CheckAndRemove Q] behind the reference, whatever was
    there.  The file is loaded and the hook is run twice, and no file
    changes.  The payload's [Unserialize] has to undo its [Serialize], the
    string codec has to read back the tag it wrote, the checksum has to be
    of 32 bytes and the file has to stay below 2^31 bytes. *)
Theorem LoadFlatDB_valid_file flatdb obj w (Q : T) :
  files w !! pathDB flatdb = Some (Write_stream flatdb Q) →
  (∀ rest, ReadString (WriteString (strMagicMessage flatdb) ++ rest)
           = Some (strMagicMessage flatdb, rest)) →
  (∀ o, ∃ rest, Unserialize o (Serialize Q) = (Q, Some rest)) →
  (∀ l, length (Hash l) = 32%nat) →
  file_size (Write_stream flatdb Q) < 2^31 →
  ∃ w2, LoadFlatDB obj flatdb w = (Some true, w2) ∧
        heap w2 obj = CheckAndRemove Q ∧
        calls w2 = calls w ++ [CallUnserialize obj; CallCheckAndRemove obj;
                               CallUnserialize obj; CallCheckAndRemove obj] ∧
        files w2 = files w.
Proof.
  intros Hfile Hstring Hpayload Hhash Hsize.
  rewrite (LoadFlatDB_image flatdb obj w Q) by done.
  eexists. split; [reflexivity |]. cbn. split; [| split; [| done]].
  - by rewrite !fn_lookup_insert.
  - by rewrite <- !app_assoc.
Qed.

(** X11: with no file on disk and a [Write] that returns true,
    [DumpFlatDB] returns true, the file holds the stream of the caller's
    object, and the object is as it was: [Write] is the only call. *)
Theorem DumpFlatDB_missing_file flatdb obj w :
  files w !! pathDB flatdb = None →
  fst (Write flatdb obj w) = Some true →
  ∃ w2, DumpFlatDB obj flatdb w = (Some true, w2) ∧
        files w2 = <[pathDB flatdb := Write_stream flatdb (heap w obj)]> (files w) ∧
        heap w2 = heap w ∧
        calls w2 = calls w ++ [CallWrite obj].
Proof.
  intros Hfile Hwrite. apply Write_true_iff in Hwrite.
  assert (Read flatdb obj true w = (Some FileError, w)) as Hread.
  { by rewrite Read_eq, Hfile. }
  rewrite (DumpFlatDB_eq _ _ _ _ _ Hread). cbn [proceeds].
  rewrite Write_eq, decide_False by done.
  by eexists.
Qed.

(** X12: when the verifying [Read] of [DumpFlatDB] returns
    [IncorrectFormat], it has cleared the caller's object; [DumpFlatDB] goes
    on, returns true, and what it writes is the stream of the cleared
    object. *)
Theorem DumpFlatDB_IncorrectFormat_saves_cleared flatdb obj w :
  fst (Read flatdb obj true w) = Some IncorrectFormat →
  ∃ o' w2,
    DumpFlatDB obj flatdb w = (Some true, w2) ∧
    heap w2 obj = Clear o' ∧
    (pathDB flatdb ∉ unwritable w →
     files w2 !! pathDB flatdb = Some (Write_stream flatdb (Clear o'))).
Proof.
  intros Hr.
  destruct (Read flatdb obj true w) as [r w1] eqn:Hread. cbn in Hr. subst r.
  rewrite (DumpFlatDB_eq _ _ _ _ _ Hread). cbn [proceeds].
  apply Read_IncorrectFormat_inv in Hread as (w0 & -> & Hw0).
  exists (heap w0 obj). eexists. split; [reflexivity |].
  assert (unwritable w0 = unwritable w) as Hlocked.
  { by destruct Hw0 as [-> | [o' ->]]. }
  rewrite Write_eq. cbn [unwritable after_Clear]. rewrite Hlocked.
  case_decide; [case_match |]; cbn; rewrite fn_lookup_insert;
    (split; [done |]); [done .. |].
  intros _. by rewrite lookup_insert_eq.
Qed.

(** X13: [DumpFlatDB] does not look at what [Write] returns.  On a path
    where the write fails, when the verifying [Read] returns a code to go on
    with, [Write] returns false and [DumpFlatDB] returns true all the same.
    No file has changed when the file could not be opened for writing; when
    the write threw, the file is left with the bytes of the stream that got
    through. *)
Theorem DumpFlatDB_ignores_Write_failure flatdb obj w r :
  pathDB flatdb ∈ unwritable w →
  fst (Read flatdb obj true w) = Some r →
  proceeds r = true →
  fst (DumpFlatDB obj flatdb w) = Some true ∧
  fst (Write flatdb obj (snd (Read flatdb obj true w))) = Some false ∧
  (torn w !! pathDB flatdb = None →
   files (snd (DumpFlatDB obj flatdb w)) = files w) ∧
  (∀ n, torn w !! pathDB flatdb = Some n →
   files (snd (DumpFlatDB obj flatdb w))
   = <[pathDB flatdb :=
         take n (Write_stream flatdb (heap (snd (Read flatdb obj true w)) obj))]>
       (files w)).
Proof.
  intros Hlocked Hr Hgo.
  destruct (Read_files flatdb obj true w) as [Hfiles Hsame].
  pose proof (Read_torn flatdb obj true w) as Htorn.
  destruct (Read flatdb obj true w) as [r' w1] eqn:Hread.
  cbn in Hr, Hfiles, Hsame, Htorn. cbn [snd]. subst r'.
  rewrite (DumpFlatDB_eq _ _ _ _ _ Hread), Hgo.
  rewrite Write_eq, decide_True by (by rewrite Hsame).
  rewrite Htorn, Hfiles.
  destruct (torn w !! pathDB flatdb) as [n|]; cbn; split_and!; try done.
  by intros n' [= <-].
Qed.

(** X14: saving and loading.  With no file on disk and a [Write] that
    returns true, [DumpFlatDB] of the object [P] followed by [LoadFlatDB]
    into any object returns true twice and leaves [CheckAndRemove P] in the
    object loaded.  The payload's [Unserialize] has to undo its [Serialize],
    the string codec has to read back the tag it wrote, the checksum has to
    be of 32 bytes and the file has to stay below 2^31 bytes. *)
Theorem DumpFlatDB_then_LoadFlatDB flatdb src dst w :
  let P := heap w src in
  files w !! pathDB flatdb = None →
  fst (Write flatdb src w) = Some true →
  (∀ rest, ReadString (WriteString (strMagicMessage flatdb) ++ rest)
           = Some (strMagicMessage flatdb, rest)) →
  (∀ o, ∃ rest, Unserialize o (Serialize P) = (P, Some rest)) →
  (∀ l, length (Hash l) = 32%nat) →
  file_size (Write_stream flatdb P) < 2^31 →
  ∃ w1 w2,
    DumpFlatDB src flatdb w = (Some true, w1) ∧
    LoadFlatDB dst flatdb w1 = (Some true, w2) ∧
    heap w2 dst = CheckAndRemove P.
Proof.
  intros P Hfile Hwrite Hstring Hpayload Hhash Hsize.
  apply Write_true_iff in Hwrite.
  assert (Read flatdb src true w = (Some FileError, w)) as Hread.
  { by rewrite Read_eq, Hfile. }
  rewrite (DumpFlatDB_eq _ _ _ _ _ Hread). cbn [proceeds].
  rewrite Write_eq, decide_False by done. cbn [snd].
  eexists _, _. split; [reflexivity |].
  rewrite (LoadFlatDB_image flatdb dst _ P); [| by apply lookup_insert_eq | done ..].
  split; [reflexivity |]. cbn. by rewrite !fn_lookup_insert.
Qed.

(** X15: whatever it returns, [LoadFlatDB] changes no file and no object
    other than the one it was given. *)
Theorem LoadFlatDB_frame flatdb obj w :
  files (snd (LoadFlatDB obj flatdb w)) = files w ∧
  ∀ obj', obj' ≠ obj → heap (snd (LoadFlatDB obj flatdb w)) obj' = heap w obj'.
Proof.
  destruct (Read_total flatdb obj false w) as (r & w1 & Hread).
  pose proof (Read_files flatdb obj false w) as [Hfiles _].
  pose proof (Read_heap_other flatdb obj false w) as Hheap.
  rewrite Hread in Hfiles, Hheap. cbn in Hfiles, Hheap.
  rewrite (LoadFlatDB_eq _ _ _ _ _ Hread).
  destruct (proceeds r); cbn [snd]; [| by split].
  destruct (Read_files flatdb obj false w1) as [-> _]. split; [done |].
  intros obj' Hne. rewrite Read_heap_other by done. by apply Hheap.
Qed.

(** X16: whatever it returns, [DumpFlatDB] changes no file other than the
    one at [pathDB] and no object other than the one it was given. *)
Theorem DumpFlatDB_frame flatdb obj w :
  (∀ path, path ≠ pathDB flatdb →
     files (snd (DumpFlatDB obj flatdb w)) !! path = files w !! path) ∧
  ∀ obj', obj' ≠ obj → heap (snd (DumpFlatDB obj flatdb w)) obj' = heap w obj'.
Proof.
  destruct (Read_total flatdb obj true w) as (r & w1 & Hread).
  pose proof (Read_files flatdb obj true w) as [Hfiles _].
  pose proof (Read_heap_other flatdb obj true w) as Hheap.
  rewrite Hread in Hfiles, Hheap. cbn in Hfiles, Hheap.
  rewrite (DumpFlatDB_eq _ _ _ _ _ Hread).
  destruct (proceeds r); cbn [snd]; [| by rewrite Hfiles].
  rewrite Write_eq. case_decide; [case_match |]; cbn; rewrite Hfiles;
    (split; [| done]); try done.
  all: intros path Hne; by rewrite lookup_insert_ne.
Qed.
End PolicyMore.

(** ** A dry run against a real read *)

Section DryRun.
Context {T : Type} {payloadT : Payload T} {host : Host}.
Implicit Types (w : World T) (flatdb : CFlatDB) (obj : ref).

(** X18: from the same world, a dry run of [Read] returns the code that a
    real [Read] returns.  When the code is not [Ok] the two leave the same
    world; when it is [Ok] the real one has called [CheckAndRemove] on the
    object in addition, and nothing else differs. *)
Theorem Read_dry_run_same_code flatdb obj w :
  fst (Read flatdb obj true w) = fst (Read flatdb obj false w) ∧
  (fst (Read flatdb obj true w) ≠ Some Ok →
   snd (Read flatdb obj false w) = snd (Read flatdb obj true w)) ∧
  (fst (Read flatdb obj true w) = Some Ok →
   snd (Read flatdb obj false w)
   = after_CheckAndRemove obj (snd (Read flatdb obj true w))).
Proof.
  rewrite !Read_eq.
  destruct (files w !! pathDB flatdb) as [filein|]; [| done].
  destruct (fst (Read_data_and_hash filein _ w)) as [[vchData hashIn]|]; [| done].
  case_bool_decide; [done |].
  destruct (Read_parse flatdb obj vchData w) as [r1 w1] eqn:Hparse.
  apply Read_parse_world in Hparse as [[-> Hr] | (s2 & -> & ->)].
  - by destruct Hr as [-> | [-> | ->]].
  - by destruct (snd (Unserialize (heap w obj) s2)).
Qed.
End DryRun.

(** ** These properties at work on the instance *)

Lemma Read_HashReadError_iff_raises_witness :
  let w := Toy.world_with [x07] Toy.short_file in
  fst (Read Toy.flatdb 0%nat false w) = Some HashReadError ∧
  snd (Read Toy.flatdb 0%nat false w) = w.
Proof.
  intros w.
  destruct (Read_HashReadError_iff_raises Toy.flatdb 0%nat false w) as [[_ Hif] Hw].
  assert (fst (Read Toy.flatdb 0%nat false w) = Some HashReadError) as Hr.
  { apply Hif. exists Toy.short_file. split; [reflexivity |].
    right. exists [], Toy.short_file. split; reflexivity. }
  split; [exact Hr | exact (Hw Hr)].
Defined.

Lemma Read_bare_checksum_witness :
  let w := Toy.world_with [x07] (replicate 32 x00) in
  let w0 := Toy.world_with [x07] Toy.bare_checksum_file in
  Read Toy.flatdb 0%nat false w = (Some IncorrectHash, w) ∧
  ∃ w', Read Toy.flatdb 0%nat false w0 = (Some IncorrectFormat, w') ∧
        heap w' 0%nat = Clear (heap w0 0%nat) ∧
        calls w' = calls w0 ++ [CallClear 0%nat].
Proof.
  intros w w0. split.
  - apply (Read_bare_checksum Toy.flatdb 0%nat false w (replicate 32 x00)).
    + reflexivity.
    + reflexivity.
    + vm_compute. discriminate.
  - apply (Read_bare_checksum Toy.flatdb 0%nat false w0 Toy.bare_checksum_file).
    + reflexivity.
    + reflexivity.
    + reflexivity.
    + reflexivity.
Defined.

Lemma body_length_by_size_witness :
  body_length (2^31 + 40) = 0.
Proof.
  rewrite (body_length_by_size (2^31 + 40)).
  - reflexivity.
  - split; [discriminate | reflexivity].
Defined.

Lemma Write_effect_witness :
  let w := Toy.world_torn [x01; x00] ∅ in
  ∃ w', Write Toy.flatdb 0%nat w = (Some false, w') ∧
        files w' = {[Toy.path := take 3 (Toy.image [x01; x00])]}.
Proof.
  intros w.
  destruct (Write_effect Toy.flatdb 0%nat w)
    as (b & w' & Hwrite & Hb & _ & _ & _ & _ & Hthrew).
  assert (b = false) as ->.
  { destruct b; [| reflexivity]. exfalso. apply (proj1 Hb eq_refl).
    apply elem_of_singleton. reflexivity. }
  exists w'. split; [exact Hwrite |].
  rewrite (Hthrew eq_refl 3%nat); reflexivity.
Defined.

Lemma Write_then_Read_passes_checksum_witness :
  let w := Toy.world [x01; x00] ∅ in
  ∃ r, fst (Read Toy.flatdb 1%nat true (snd (Write Toy.flatdb 0%nat w))) = Some r ∧
       r ∈ [Ok; IncorrectMagicMessage; IncorrectMagicNumber; IncorrectFormat].
Proof.
  intros w.
  apply (Write_then_Read_passes_checksum Toy.flatdb 0%nat 1%nat true w).
  - apply not_elem_of_empty.
  - apply Toy_Hash_length.
  - reflexivity.
Defined.

Lemma Write_then_Read_other_tag_witness :
  let w := Toy.world [x01; x00] ∅ in
  Read Toy.flatdb_gov 1%nat false (snd (Write Toy.flatdb 0%nat w))
  = (Some IncorrectMagicMessage, snd (Write Toy.flatdb 0%nat w)).
Proof.
  intros w.
  apply (Write_then_Read_other_tag Toy.flatdb Toy.flatdb_gov 0%nat 1%nat false w).
  - reflexivity.
  - discriminate.
  - apply not_elem_of_empty.
  - apply Toy_ReadString_tag.
  - apply Toy_Hash_length.
  - reflexivity.
Defined.

Lemma abort_leaves_world_witness :
  let w := Toy.world_with [x07] Toy.corrupted_file in
  snd (LoadFlatDB 0%nat Toy.flatdb w) = w.
Proof.
  intros w.
  apply (abort_leaves_world Toy.flatdb 0%nat w (snd (LoadFlatDB 0%nat Toy.flatdb w))).
  left. vm_compute. reflexivity.
Defined.

Lemma LoadFlatDB_missing_file_witness :
  let w := Toy.world [x07] ∅ in
  LoadFlatDB 0%nat Toy.flatdb w = (Some true, w).
Proof.
  intros w.
  apply (LoadFlatDB_missing_file Toy.flatdb 0%nat w).
  reflexivity.
Defined.

Lemma LoadFlatDB_valid_file_witness :
  let w := Toy.world_with [x07] (Toy.image [x01; x00]) in
  ∃ w2, LoadFlatDB 0%nat Toy.flatdb w = (Some true, w2) ∧
        heap w2 0%nat = CheckAndRemove [x01; x00] ∧
        calls w2 = calls w ++ [CallUnserialize 0%nat; CallCheckAndRemove 0%nat;
                               CallUnserialize 0%nat; CallCheckAndRemove 0%nat] ∧
        files w2 = files w.
Proof.
  intros w.
  apply (LoadFlatDB_valid_file Toy.flatdb 0%nat w [x01; x00]).
  - reflexivity.
  - apply Toy_ReadString_tag.
  - apply Toy_Unserialize_two.
  - apply Toy_Hash_length.
  - reflexivity.
Defined.

Lemma DumpFlatDB_missing_file_witness :
  let w := Toy.world [x07] ∅ in
  ∃ w2, DumpFlatDB 0%nat Toy.flatdb w = (Some true, w2) ∧
        files w2 = <[pathDB Toy.flatdb := Write_stream Toy.flatdb (heap w 0%nat)]> (files w) ∧
        heap w2 = heap w ∧
        calls w2 = calls w ++ [CallWrite 0%nat].
Proof.
  intros w.
  apply (DumpFlatDB_missing_file Toy.flatdb 0%nat w).
  - reflexivity.
  - reflexivity.
Defined.

Lemma DumpFlatDB_IncorrectFormat_saves_cleared_witness :
  let w := Toy.world_with [x07] Toy.broken_payload_file in
  ∃ o' w2,
    DumpFlatDB 0%nat Toy.flatdb w = (Some true, w2) ∧
    heap w2 0%nat = Clear o' ∧
    (pathDB Toy.flatdb ∉ unwritable w →
     files w2 !! pathDB Toy.flatdb = Some (Write_stream Toy.flatdb (Clear o'))).
Proof.
  intros w.
  apply (DumpFlatDB_IncorrectFormat_saves_cleared Toy.flatdb 0%nat w).
  vm_compute. reflexivity.
Defined.

Lemma DumpFlatDB_ignores_Write_failure_witness :
  let w := Toy.world_locked [x07] ∅ in
  let w' := Toy.world_torn [x07] ∅ in
  (fst (DumpFlatDB 0%nat Toy.flatdb w) = Some true ∧
   files (snd (DumpFlatDB 0%nat Toy.flatdb w)) = files w) ∧
  (fst (DumpFlatDB 0%nat Toy.flatdb w') = Some true ∧
   files (snd (DumpFlatDB 0%nat Toy.flatdb w'))
   = {[Toy.path := take 3 (Toy.image [x07])]}).
Proof.
  intros w w'. split.
  - destruct (DumpFlatDB_ignores_Write_failure Toy.flatdb 0%nat w FileError)
      as (Hdump & _ & Hrefused & _).
    + apply elem_of_singleton. reflexivity.
    + reflexivity.
    + reflexivity.
    + split; [exact Hdump |]. apply Hrefused. reflexivity.
  - destruct (DumpFlatDB_ignores_Write_failure Toy.flatdb 0%nat w' FileError)
      as (Hdump & _ & _ & Hthrew).
    + apply elem_of_singleton. reflexivity.
    + reflexivity.
    + reflexivity.
    + split; [exact Hdump |]. rewrite (Hthrew 3%nat); reflexivity.
Defined.

Lemma DumpFlatDB_then_LoadFlatDB_witness :
  let w := Toy.world [x01; x00] ∅ in
  ∃ w1 w2,
    DumpFlatDB 0%nat Toy.flatdb w = (Some true, w1) ∧
    LoadFlatDB 1%nat Toy.flatdb w1 = (Some true, w2) ∧
    heap w2 1%nat = CheckAndRemove [x01; x00].
Proof.
  intros w.
  apply (DumpFlatDB_then_LoadFlatDB Toy.flatdb 0%nat 1%nat w).
  - reflexivity.
  - reflexivity.
  - apply Toy_ReadString_tag.
  - apply Toy_Unserialize_two.
  - apply Toy_Hash_length.
  - reflexivity.
Defined.

Lemma DumpFlatDB_keeps_valid_file_witness :
  let w := Toy.world_with [x07] (Toy.image [x01; x00]) in
  ∃ w2, DumpFlatDB 0%nat Toy.flatdb w = (Some true, w2) ∧
        heap w2 0%nat = [x01; x00] ∧
        files w2 = files w.
Proof.
  intros w.
  apply (DumpFlatDB_keeps_valid_file Toy.flatdb 0%nat w [x01; x00]).
  - reflexivity.
  - reflexivity.
  - apply Toy_ReadString_tag.
  - apply Toy_Unserialize_two.
  - apply Toy_Hash_length.
  - reflexivity.
Defined.
